(** * Investigation Board: the note position manager and the text truncation

    A shallow embedding of [scripts/investigation-board.js]:
    - [getBaseCharacterLimits], [getDynamicCharacterLimits] and
      [CustomDrawing._truncateText] (the character budget of a note);
    - [NotePositionManager]: the hook handlers [onNoteUpdate],
      [onNoteCreate], [onNoteDelete], the socket handler
      [onExternalPositionUpdate], [loadPositions], [updatePosition],
      [savePositions] and the queries [searchNotesByText] and
      [findNearestNote].

    Conventions of the embedding.
    - A JavaScript string is the list of its UTF-16 code units ([jsstring]);
      property names, document ids and user ids, which the program only
      compares, are [string]s.
    - A JavaScript number is the value of a double: a rational, the
      negative zero, an infinity or NaN ([jsnum]).  The operations of
      [JsNum] ([*], [/], [+], [-] and [Math.sqrt]), with which the
      character budget and the distances are computed, are those of IEEE
      754 binary64, round to nearest even, through the primitive floats:
      every double is the double of its value
      ([JsNumFacts.toFloat_fromFloat]).  Comparisons and [Math.round]
      are exact on the values.  The coordinates and sizes of the records
      and drawings are rationals, the values of the doubles they hold.
    - A plain object used as a map is the list of its own properties in
      enumeration order ([obj]).  Document ids are the host's 16 character
      random ids, never array indices, so the enumeration order is the
      insertion order.  Where the program looks a name up that a caller
      chooses ([limits[noteType]], [baseLimits[font]],
      [this.callbacks[event]]), the members every object inherits from
      [Object.prototype] are part of the lookup.
    - The manager is a record of its fields and of the parts of the host
      it talks to; every method is a function from state to state, run to
      completion (the suspension points of [await] are not modelled).  A
      call of [drawing.refresh()] that is not awaited is recorded when it
      is made ([refreshed]); what the refresh does then is [Ui.refresh],
      and [Ui.withRefresh] is a handler followed by the refreshes it
      started.
    - The host is modelled at its interface: [scene.setFlag] replaces the
      flag or rejects, [scene.getFlag] reads it, [document.update] puts
      the changes into the drawing and runs the [updateDrawing] hook, and
      the object on the canvas shows what its document holds.  Of the
      rendering of [CustomDrawing], the textures, the text and the pin
      colour are modelled, the sprites are not. *)

From Stdlib Require Import Floats Uint63.
From Stdlib Require Import List String Ascii Bool ZArith NArith QArith Qround Lia Lqa.
Import ListNotations.

Set Implicit Arguments.

(** ** Strings *)

Module JsString.

Definition jsstring := list N.

Fixpoint str (s : string) : jsstring :=
  match s with
  | EmptyString => []
  | String c r => N_of_ascii c :: str r
  end.

Definition length (s : jsstring) : Z := Z.of_nat (List.length s).

Definition eqb (a b : jsstring) : bool :=
  if list_eq_dec N.eq_dec a b then true else false.

(** WhiteSpace and LineTerminator code points of ECMAScript, the ones
    [String.prototype.trim] strips. *)
Definition isWhiteSpace (c : N) : bool :=
  ((9 <=? c) && (c <=? 13) || (c =? 32) || (c =? 160) || (c =? 5760)
   || (8192 <=? c) && (c <=? 8202) || (c =? 8232) || (c =? 8233)
   || (c =? 8239) || (c =? 8287) || (c =? 12288) || (c =? 65279))%N.

Fixpoint trimStart (s : jsstring) : jsstring :=
  match s with
  | [] => []
  | c :: r => if isWhiteSpace c then trimStart r else s
  end.

Definition trimEnd (s : jsstring) : jsstring := rev (trimStart (rev s)).

Definition trim (s : jsstring) : jsstring := trimEnd (trimStart s).

Fixpoint startsWith (s p : jsstring) : bool :=
  match p, s with
  | [], _ => true
  | _ :: _, [] => false
  | a :: p', b :: s' => (a =? b)%N && startsWith s' p'
  end.

(** [String.prototype.includes] with a string argument. *)
Fixpoint includes (s p : jsstring) : bool :=
  startsWith s p ||
  match s with
  | [] => false
  | _ :: s' => includes s' p
  end.

(** The property "[p] occurs in [s]". *)
Definition occurs_in (p s : jsstring) : Prop :=
  exists pre post, s = pre ++ p ++ post.

Definition ellipsis : jsstring := str "...".

End JsString.

Import JsString.

(** ** Numbers *)

Module JsNum.

(** A Number by its value: a finite double is the rational it stands
    for; the negative zero, the infinities and NaN are apart. *)
Inductive jsnum : Type :=
| Fin (q : Q)
| NZero
| PInf
| NInf
| NaN.

(** [m / 2^p] in lowest terms. *)
Fixpoint lowest (m : positive) (p : nat) : Q :=
  match m, p with
  | xO m', S p' => lowest m' p'
  | _, _ => Zpos m # Pos.shiftl_nat 1 p
  end.

(** [m * 2^e] *)
Definition dyadic (m : positive) (e : Z) : Q :=
  match e with
  | Z0 => Zpos m # 1
  | Zpos p => Zpos (m * 2 ^ p) # 1
  | Zneg p => lowest m (Pos.to_nat p)
  end.

(** The Number a double is: the value of its mantissa and exponent. *)
Definition fromFloat (f : float) : jsnum :=
  match Prim2SF f with
  | S754_zero false => Fin 0
  | S754_zero true => NZero
  | S754_infinity false => PInf
  | S754_infinity true => NInf
  | S754_nan => NaN
  | S754_finite false m e => Fin (dyadic m e)
  | S754_finite true m e => Fin (- dyadic m e)
  end.

(** The double with the value [n * 2^k], when there is one: the mantissa
    at the exponent [e] the format gives a number of that size, scaled
    by [e] (as [SF2Prim] builds a double). *)
Definition exactDouble (n : positive) (k : Z) : option float :=
  let e := fexp prec emax (Zpos (digits2_pos n) + k) in
  if (e <=? emax - prec)%Z then
    match (k - e)%Z with
    | Z0 => Some (Z.ldexp (PrimFloat.of_uint63 (Uint63.of_Z (Zpos n))) e)
    | Zpos s =>
        Some (Z.ldexp (PrimFloat.of_uint63 (Uint63.of_Z (Zpos (n * 2 ^ s)))) e)
    | Zneg s =>
        if (Zpos n mod 2 ^ Zpos s =? 0)%Z
        then Some (Z.ldexp (PrimFloat.of_uint63
                              (Uint63.of_Z (Zpos n / 2 ^ Zpos s))) e)
        else None
    end
  else None.

(** The double nearest to a positive integer.  An integer of more than
    63 bits is cut to its leading 63 bits, the last of them set when a
    bit is cut off that is set, before it is rounded. *)
Definition ofPositive (p : positive) : float :=
  let n := Z.log2 (Zpos p) in
  if (n <=? 62)%Z then PrimFloat.of_uint63 (Uint63.of_Z (Zpos p))
  else
    let s := (n - 62)%Z in
    let leading := Z.shiftr (Zpos p) s in
    let sticky := if (Z.land (Zpos p) (Z.ones s) =? 0)%Z then 0%Z else 1%Z in
    Z.ldexp (PrimFloat.of_uint63 (Uint63.of_Z (Z.lor leading sticky))) s.

(** The double of [n * 2^k]: the double with that value, or a double
    next to it. *)
Definition ofScaled (n : positive) (k : Z) : float :=
  match exactDouble n k with
  | Some f => f
  | None => Z.ldexp (ofPositive n) k
  end.

(** The double of a rational: the double whose value it is, when there
    is one ([toFloat_fromFloat]); a double next to it otherwise. *)
Definition ofRational (q : Q) : float :=
  let b := Z.log2 (Zpos (Qden q)) in
  if (Zpos (Qden q) =? 2 ^ b)%Z then
    match Qnum q with
    | Z0 => PrimFloat.zero
    | Zpos n => ofScaled n (- b)
    | Zneg n => PrimFloat.opp (ofScaled n (- b))
    end
  else
    match Qnum q with
    | Z0 => PrimFloat.zero
    | Zpos n => PrimFloat.div (ofPositive n) (ofPositive (Qden q))
    | Zneg n =>
        PrimFloat.opp (PrimFloat.div (ofPositive n) (ofPositive (Qden q)))
    end.

(** The double a Number is. *)
Definition toFloat (a : jsnum) : float :=
  match a with
  | Fin q => ofRational q
  | NZero => PrimFloat.neg_zero
  | PInf => PrimFloat.infinity
  | NInf => PrimFloat.neg_infinity
  | NaN => PrimFloat.nan
  end.

(** [a * b] *)
Definition mul (a b : jsnum) : jsnum :=
  fromFloat (PrimFloat.mul (toFloat a) (toFloat b)).

(** [a / b] *)
Definition div (a b : jsnum) : jsnum :=
  fromFloat (PrimFloat.div (toFloat a) (toFloat b)).

(** [a + b] *)
Definition add (a b : jsnum) : jsnum :=
  fromFloat (PrimFloat.add (toFloat a) (toFloat b)).

(** [a - b] *)
Definition sub (a b : jsnum) : jsnum :=
  fromFloat (PrimFloat.sub (toFloat a) (toFloat b)).

(** [Math.sqrt(a)] *)
Definition Math_sqrt (a : jsnum) : jsnum :=
  fromFloat (PrimFloat.sqrt (toFloat a)).

Definition isZero (q : Q) : bool := Qeq_bool q 0.

Definition Qltb (a b : Q) : bool := negb (Qle_bool b a).

(** [Math.round]: the integer nearest to the argument, ties upwards; the
    negative zero for an argument from [-0.5] up to the negative zero. *)
Definition Math_round (a : jsnum) : jsnum :=
  match a with
  | Fin x =>
      let r := Qfloor (x + (1 # 2)) in
      if (r =? 0)%Z && Qltb x 0 then NZero else Fin (inject_Z r)
  | _ => a
  end.

(** ToBoolean of a number. *)
Definition truthy (a : jsnum) : bool :=
  match a with
  | Fin x => negb (isZero x)
  | PInf | NInf => true
  | NZero | NaN => false
  end.

(** [a <= b] *)
Definition le (a b : jsnum) : bool :=
  match a, b with
  | NaN, _ | _, NaN => false
  | NInf, _ | _, PInf => true
  | Fin x, Fin y => Qle_bool x y
  | Fin x, NZero => Qle_bool x 0
  | NZero, Fin y => Qle_bool 0 y
  | NZero, NZero => true
  | _, _ => false
  end.

(** [a < b] *)
Definition lt (a b : jsnum) : bool :=
  match a, b with
  | NaN, _ | _, NaN => false
  | PInf, _ | _, NInf => false
  | NInf, _ | _, PInf => true
  | Fin x, Fin y => Qltb x y
  | Fin x, NZero => Qltb x 0
  | NZero, Fin y => Qltb 0 y
  | NZero, NZero => false
  end.

Definition ofZ (z : Z) : jsnum := Fin (inject_Z z).

(** A double with the sign bit set; NaN has no sign. *)
Definition negative (f : float) : bool :=
  match Prim2SF f with
  | S754_zero s | S754_infinity s | S754_finite s _ _ => s
  | S754_nan => false
  end.

(** A number that is neither below zero nor the negative zero: zero, a
    positive number, Infinity, or NaN. *)
Definition notNegative (a : jsnum) : Prop :=
  match a with
  | Fin q => (0 <= q)%Q
  | PInf | NaN => True
  | NZero | NInf => False
  end.

End JsNum.

Import JsNum.

(** ** Plain objects *)

Module JsObj.

Section Obj.
Variable V : Type.

Definition obj := list (string * V).

(** [o[k]], [None] for [undefined]. *)
Fixpoint get (o : obj) (k : string) : option V :=
  match o with
  | [] => None
  | (k', v) :: r => if String.eqb k' k then Some v else get r k
  end.

(** [o[k] = v]: an own property keeps its place, a new one goes last. *)
Fixpoint set (o : obj) (k : string) (v : V) : obj :=
  match o with
  | [] => [(k, v)]
  | (k', v') :: r =>
      if String.eqb k' k then (k', v) :: r else (k', v') :: set r k v
  end.

(** [delete o[k]] *)
Fixpoint delete (o : obj) (k : string) : obj :=
  match o with
  | [] => []
  | (k', v') :: r =>
      if String.eqb k' k then r else (k', v') :: delete r k
  end.

Definition keys (o : obj) : list string := map fst o.
(** [Object.values(o)] *)
Definition values (o : obj) : list V := map snd o.
(** [Object.entries(o)] *)
Definition entries (o : obj) : list (string * V) := o.

(** An object has each own property once. *)
Definition wf (o : obj) : Prop := NoDup (keys o).

End Obj.

(** The names of the members of [Object.prototype], which every plain
    object inherits. *)
Definition objectMembers : list string :=
  ["constructor"; "hasOwnProperty"; "isPrototypeOf"; "propertyIsEnumerable";
   "toLocaleString"; "toString"; "valueOf"; "__proto__";
   "__defineGetter__"; "__defineSetter__";
   "__lookupGetter__"; "__lookupSetter__"]%string.

(** [k] names a member of [Object.prototype]: on a plain object without
    an own property [k], [o[k]] is that member and not [undefined]. *)
Definition inheritedName (k : string) : bool :=
  existsb (String.eqb k) objectMembers.

End JsObj.

(** ** The character budget *)

Module Truncation.

#[local] Unset Elimination Schemes.

(** The values the lookups of [getDynamicCharacterLimits] and of
    [_truncateText] can give, as far as the program distinguishes them.
    A setting holds [undefined], a number or a plain object; [VNative] is
    a member inherited from a built-in prototype: a function such as
    [Object] or [Object.prototype.toString], or, under [__proto__], the
    prototype itself. *)
Inductive jsval : Type :=
| VUndef
| VNum (n : jsnum)
| VObj (props : list (string * jsval))
| VNative.
#[local] Set Elimination Schemes.

Definition truthy (v : jsval) : bool :=
  match v with
  | VUndef => false
  | VNum n => JsNum.truthy n
  | VObj _ | VNative => true
  end.

(** [a || b] *)
Definition or_else (a b : jsval) : jsval := if truthy a then a else b.

(** The names of the members of [Number.prototype] that
    [Object.prototype] does not have as well. *)
Definition numberMembers : list string :=
  ["toExponential"; "toFixed"; "toPrecision"]%string.

(** [v[k]] for a [v] that is not [undefined]: an own property first, then
    the members of the prototype.  Of a built-in the program reads
    [.sticky], [.photo] and [.index] only, which no built-in has. *)
Definition prop (v : jsval) (k : string) : jsval :=
  match v with
  | VObj props =>
      match JsObj.get props k with
      | Some x => x
      | None => if JsObj.inheritedName k then VNative else VUndef
      end
  | VNum _ =>
      if JsObj.inheritedName k || existsb (String.eqb k) numberMembers
      then VNative
      else VUndef
  | VNative => VUndef
  | VUndef => VUndef
  end.

(** ToNumber: [undefined], a plain object and a built-in give NaN. *)
Definition toNumber (v : jsval) : jsnum :=
  match v with
  | VNum n => n
  | _ => NaN
  end.

Definition BASE_FONT_SIZE : jsnum := ofZ 15.

Definition builtinLimits : jsval :=
  VObj [("sticky", VNum (ofZ 60));
        ("photo", VNum (ofZ 15));
        ("index", VNum (ofZ 200))]%string.

(** The object [getDynamicCharacterLimits] returns. *)
Record Limits : Type := mkLimits {
  sticky : jsnum;
  photo : jsnum;
  index : jsnum
}.

Section WithSettings.

(** [game.settings.get(MODULE_ID, "baseCharacterLimits")]; the
    registration of the setting is in [settings.js]. *)
Variable baseCharacterLimits : jsval.

Definition getBaseCharacterLimits : jsval :=
  or_else baseCharacterLimits builtinLimits.

Definition getDynamicCharacterLimits
    (noteType : string) (currentFontSize : jsnum) : Limits :=
  let baseLimits := getBaseCharacterLimits in
  let scaleFactor := div BASE_FONT_SIZE currentFontSize in
  let limits := or_else (prop baseLimits noteType) builtinLimits in
  {| sticky := Math_round (mul (toNumber (prop limits "sticky")) scaleFactor);
     photo := Math_round (mul (toNumber (prop limits "photo")) scaleFactor);
     index := Math_round (mul (toNumber (prop limits "index")) scaleFactor) |}.

(** [limits[noteType]] on the object [getDynamicCharacterLimits]
    returned: one of its three own properties, a member it inherits from
    [Object.prototype], or [undefined]. *)
Definition limitOf (limits : Limits) (noteType : string) : jsval :=
  if String.eqb noteType "sticky" then VNum (sticky limits)
  else if String.eqb noteType "photo" then VNum (photo limits)
  else if String.eqb noteType "index" then VNum (index limits)
  else if JsObj.inheritedName noteType then VNative
  else VUndef.

(** [limits[noteType] || 100] of [_truncateText], as the number the
    comparison and [slice] make of it: NaN when it is an inherited
    member. *)
Definition charLimit
    (font noteType : string) (currentFontSize : jsnum) : jsnum :=
  let limits := getDynamicCharacterLimits font currentFontSize in
  toNumber (or_else (limitOf limits noteType) (VNum (ofZ 100))).

(** [text.slice(0, e)] *)
Definition slice0 (text : jsstring) (e : jsnum) : jsstring :=
  let len := JsString.length text in
  let final :=
    match e with
    | NaN => 0
    | NZero => 0
    | PInf => len
    | NInf => 0
    | Fin q =>
        let i := Z.quot (Qnum q) (Zpos (Qden q)) in
        if i <? 0 then Z.max (len + i) 0 else Z.min i len
    end%Z in
  firstn (Z.to_nat final) text.

Definition _truncateText
    (text : jsstring) (font noteType : string) (currentFontSize : jsnum)
    : jsstring :=
  let charLimit := charLimit font noteType currentFontSize in
  if JsNum.le (ofZ (JsString.length text)) charLimit
  then text
  else trim (slice0 text charLimit) ++ ellipsis.

End WithSettings.

(** The limit as the specification words it:
    [round(baseLimits[noteType] * (baseFontSize / currentFontSize))]. *)
Definition spec_limit
    (baseLimits : jsval) (noteType : string)
    (baseFontSize currentFontSize : jsnum) : jsnum :=
  Math_round (mul (toNumber (prop baseLimits noteType))
                  (div baseFontSize currentFontSize)).

(** The limit as C4, amended, words it.  The table of limits is the
    entry of the configured base limits under the font name, or the
    built-in one; for sticky, photo and index the limit is the formula of
    the specification on that table with the base font size 15, and 100
    when that is 0 or NaN; for the name of a member every object
    inherits there is no number; for any other note type it is 100. *)
Definition amended_limit
    (baseCharacterLimits : jsval) (font noteType : string)
    (currentFontSize : jsnum) : jsnum :=
  let configured := or_else baseCharacterLimits builtinLimits in
  let table := or_else (prop configured font) builtinLimits in
  if existsb (String.eqb noteType) ["sticky"; "photo"; "index"]%string then
    let scaled := spec_limit table noteType (ofZ 15) currentFontSize in
    if JsNum.truthy scaled then scaled else ofZ 100
  else if JsObj.inheritedName noteType then NaN
  else ofZ 100.

(** The truncated text as the specification words it: the first [limit]
    characters, trailing whitespace trimmed, then the ellipsis. *)
Definition spec_truncated (text : jsstring) (limit : nat) : jsstring :=
  trimEnd (firstn limit text) ++ ellipsis.

End Truncation.

(** ** The data of the position manager *)

Module Board.

Import JsObj.

(** A saved position, the object [updatePosition] builds.  A field is
    [None] when the property is [undefined]. *)
Record NoteRecord : Type := mkNote {
  n_id : option string;
  n_x : option Q;
  n_y : option Q;
  n_rotation : option Q;
  n_z : option Q;
  n_width : option Q;
  n_height : option Q;
  n_scaleX : option Q;
  n_scaleY : option Q;
  n_type : option string;
  n_text : option jsstring;
  n_image : option string;
  n_pinColor : option string;
  n_identityName : option string;
  n_updated : option Z
}.

Record Shape : Type := mkShape {
  width : option Q;
  height : option Q
}.

Record Transform : Type := mkTransform {
  scaleX : option Q;
  scaleY : option Q
}.

(** [flags[MODULE_ID]] of a drawing. *)
Record NoteFlags : Type := mkFlags {
  f_type : option string;
  f_text : option jsstring;
  f_image : option string;
  f_pinColor : option string;
  f_identityName : option string
}.

(** A drawing of the host, as the manager reads it, through the
    document or through the object on the canvas. *)
Record Drawing : Type := mkDrawing {
  d_id : string;
  d_x : option Q;
  d_y : option Q;
  d_rotation : option Q;
  d_z : option Q;
  d_shape : option Shape;
  d_transform : option Transform;
  d_flags : option NoteFlags
}.

(** The change object of [document.update] and of the [updateDrawing]
    hook, reduced to the properties the manager looks at. *)
Record UpdateData : Type := mkUpdate {
  u_x : option Q;
  u_y : option Q;
  u_rotation : option Q;
  u_z : option Q;
  u_width : option Q;
  u_height : option Q;
  u_scaleX : option Q;
  u_scaleY : option Q;
  u_type : option string;
  u_text : option jsstring;
  u_image : option string;
  u_pinColor : option string;
  u_identityName : option string
}.

Record Options : Type := mkOptions {
  noSocket : bool
}.

(** The payload of ["updateNotePosition"]; [position = None] is [null]. *)
Record PositionMessage : Type := mkMessage {
  m_id : option string;
  m_position : option NoteRecord
}.

(** [canvas.scene], reduced to the flag the manager owns. *)
Record Scene : Type := mkScene {
  notePositions : option (obj NoteRecord)
}.

(** The manager and the host around it. *)
Record Manager : Type := mkManager {
  positions : obj NoteRecord;          (* this.positions *)
  socket : bool;                       (* this.socket is set *)
  scene : option Scene;                (* canvas.scene *)
  setFlagRejects : bool;               (* scene.setFlag rejects *)
  gameUserId : string;                 (* game.user.id *)
  now : Z;                             (* Date.now() *)
  drawings : obj Drawing;              (* canvas.drawings *)
  sent : list PositionMessage;         (* socket.executeForOthers calls *)
  emitted : list (string * obj NoteRecord);   (* this.emit calls *)
  errors : list string;                (* console.error calls *)
  renderWrites : list (string * UpdateData * Options); (* document.update calls *)
  refreshed : list string              (* drawing.refresh() calls started *)
}.

Definition with_positions (p : obj NoteRecord) (s : Manager) : Manager :=
  mkManager p (socket s) (scene s) (setFlagRejects s) (gameUserId s) (now s)
            (drawings s) (sent s) (emitted s) (errors s) (renderWrites s)
            (refreshed s).

Definition with_scene (sc : option Scene) (s : Manager) : Manager :=
  mkManager (positions s) (socket s) sc (setFlagRejects s) (gameUserId s)
            (now s) (drawings s) (sent s) (emitted s) (errors s)
            (renderWrites s) (refreshed s).

Definition with_setFlagRejects (b : bool) (s : Manager) : Manager :=
  mkManager (positions s) (socket s) (scene s) b (gameUserId s)
            (now s) (drawings s) (sent s) (emitted s) (errors s)
            (renderWrites s) (refreshed s).

Definition with_drawings (d : obj Drawing) (s : Manager) : Manager :=
  mkManager (positions s) (socket s) (scene s) (setFlagRejects s)
            (gameUserId s) (now s) d (sent s) (emitted s) (errors s)
            (renderWrites s) (refreshed s).

Definition with_sent (m : list PositionMessage) (s : Manager) : Manager :=
  mkManager (positions s) (socket s) (scene s) (setFlagRejects s)
            (gameUserId s) (now s) (drawings s) m (emitted s) (errors s)
            (renderWrites s) (refreshed s).

Definition with_emitted (e : list (string * obj NoteRecord)) (s : Manager)
    : Manager :=
  mkManager (positions s) (socket s) (scene s) (setFlagRejects s)
            (gameUserId s) (now s) (drawings s) (sent s) e (errors s)
            (renderWrites s) (refreshed s).

Definition with_errors (e : list string) (s : Manager) : Manager :=
  mkManager (positions s) (socket s) (scene s) (setFlagRejects s)
            (gameUserId s) (now s) (drawings s) (sent s) (emitted s) e
            (renderWrites s) (refreshed s).

Definition with_renderWrites (w : list (string * UpdateData * Options))
    (s : Manager) : Manager :=
  mkManager (positions s) (socket s) (scene s) (setFlagRejects s)
            (gameUserId s) (now s) (drawings s) (sent s) (emitted s)
            (errors s) w (refreshed s).

Definition with_refreshed (r : list string) (s : Manager) : Manager :=
  mkManager (positions s) (socket s) (scene s) (setFlagRejects s)
            (gameUserId s) (now s) (drawings s) (sent s) (emitted s)
            (errors s) (renderWrites s) r.

(** [a || d] on a number and on a string. *)
Definition num_or (a : option Q) (d : Q) : Q :=
  match a with
  | Some q => if Qeq_bool q 0 then d else q
  | None => d
  end.

Definition str_or (a : option string) (d : string) : string :=
  match a with
  | Some EmptyString | None => d
  | Some s => s
  end.

Definition text_or (a : option jsstring) (d : jsstring) : jsstring :=
  match a with
  | Some [] | None => d
  | Some s => s
  end.

(** [a !== b] for a [b] that is not [undefined]. *)
Definition num_differs (a : option Q) (b : Q) : bool :=
  match a with
  | Some q => negb (Qeq_bool q b)
  | None => true
  end.

Definition str_differs (a : option string) (b : string) : bool :=
  match a with
  | Some s => negb (String.eqb s b)
  | None => true
  end.

Definition text_differs (a : option jsstring) (b : jsstring) : bool :=
  match a with
  | Some s => negb (JsString.eqb s b)
  | None => true
  end.

(** [a?.f] *)
Definition opt_field {A B : Type} (a : option A) (f : A -> option B)
    : option B :=
  match a with
  | Some x => f x
  | None => None
  end.

End Board.

(** ** The methods of [NotePositionManager] *)

Module NotePositionManager.

Import JsObj Board.

Definition emit (event : string) (s : Manager) : Manager :=
  with_emitted (emitted s ++ [(event, positions s)]) s.

(** [this.socket.executeForOthers("updateNotePosition", data)] *)
Definition executeForOthers (data : PositionMessage) (s : Manager) : Manager :=
  with_sent (sent s ++ [data]) s.

(** The message of [console.error] in [savePositions]. *)
Definition saveError : string := "Error saving note positions".

Definition savePositions (s : Manager) : Manager :=
  match scene s with
  | None => s
  | Some _ =>
      if setFlagRejects s
      then with_errors (errors s ++ [saveError]) s
      else with_scene (Some (mkScene (Some (positions s)))) s
  end.

(** The position object of [updatePosition]. *)
Definition positionOf (document : Drawing) (updated : Z) : NoteRecord :=
  {| n_id := Some (d_id document);
     n_x := d_x document;
     n_y := d_y document;
     n_rotation := Some (num_or (d_rotation document) 0);
     n_z := Some (num_or (d_z document) 0);
     n_width := opt_field (d_shape document) width;
     n_height := opt_field (d_shape document) height;
     n_scaleX := Some (num_or (opt_field (d_transform document) scaleX) 1);
     n_scaleY := Some (num_or (opt_field (d_transform document) scaleY) 1);
     n_type := Some (str_or (opt_field (d_flags document) f_type) "sticky");
     n_text := Some (text_or (opt_field (d_flags document) f_text) []);
     n_image := Some (str_or (opt_field (d_flags document) f_image) "");
     n_pinColor := Some (str_or (opt_field (d_flags document) f_pinColor) "");
     n_identityName :=
       Some (str_or (opt_field (d_flags document) f_identityName) "");
     n_updated := Some updated |}.

Definition updatePosition (document : Drawing) (userId : string)
    (s : Manager) : Manager :=
  let position := positionOf document (now s) in
  let s := with_positions (set (positions s) (d_id document) position) s in
  let s := savePositions s in
  let s := emit "positionsUpdated" s in
  if socket s && String.eqb (gameUserId s) userId
  then executeForOthers (mkMessage (Some (d_id document)) (Some position)) s
  else s.

Definition isSome {A : Type} (a : option A) : bool :=
  match a with
  | Some _ => true
  | None => false
  end.

Definition onNoteUpdate (document : Drawing) (updateData : UpdateData)
    (options : Options) (userId : string) (s : Manager) : Manager :=
  if noSocket options then s
  else
    match d_flags document with
    | Some _ =>
        let hasPositionChange :=
          isSome (u_x updateData) || isSome (u_y updateData)
          || isSome (u_rotation updateData) || isSome (u_z updateData)
          || isSome (u_scaleX updateData) || isSome (u_scaleY updateData) in
        let hasShapeChange :=
          isSome (u_width updateData) || isSome (u_height updateData) in
        let hasFlagChanges :=
          isSome (u_type updateData) || isSome (u_text updateData)
          || isSome (u_image updateData) || isSome (u_pinColor updateData)
          || isSome (u_identityName updateData) in
        if hasPositionChange || hasShapeChange || hasFlagChanges
        then updatePosition document userId s
        else s
    | None => s
    end.

Definition onNoteCreate (document : Drawing) (options : Options)
    (userId : string) (s : Manager) : Manager :=
  match d_flags document with
  | Some _ => updatePosition document userId s
  | None => s
  end.

Definition onNoteDelete (document : Drawing) (options : Options)
    (userId : string) (s : Manager) : Manager :=
  if isSome (d_flags document) && isSome (get (positions s) (d_id document))
  then
    let s := with_positions (delete (positions s) (d_id document)) s in
    let s := savePositions s in
    let s := emit "positionsUpdated" s in
    if socket s && String.eqb (gameUserId s) userId
    then executeForOthers (mkMessage (Some (d_id document)) None) s
    else s
  else s.

Definition nonEmpty (k : string) : bool :=
  match k with
  | EmptyString => false
  | _ => true
  end.

(** The handler of ["updateNotePosition"].  Its last statement calls
    [drawing.refresh()] without awaiting it: the call is recorded in
    [refreshed], and what the refresh does once the handler has returned
    is [Ui.refresh]. *)
Definition onExternalPositionUpdate (data : PositionMessage) (s : Manager)
    : Manager :=
  match m_id data, m_position data with
  | Some id, Some position =>
      if nonEmpty id then
        let s := with_positions (set (positions s) id position) s in
        let s := emit "positionsUpdated" s in
        match get (drawings s) id with
        | Some _ => with_refreshed (refreshed s ++ [id]) s
        | None => s
        end
      else s
  | _, _ => s
  end.

(** The host's [document.update(updateData, options)]: the changes go
    into the drawing, then the [updateDrawing] hook runs with the same
    change object and options, for the user of this client. *)
Definition pick {A : Type} (new old : option A) : option A :=
  match new with
  | Some _ => new
  | None => old
  end.

Definition applyUpdate (u : UpdateData) (d : Drawing) : Drawing :=
  {| d_id := d_id d;
     d_x := pick (u_x u) (d_x d);
     d_y := pick (u_y u) (d_y d);
     d_rotation := pick (u_rotation u) (d_rotation d);
     d_z := pick (u_z u) (d_z d);
     d_shape :=
       if isSome (u_width u) || isSome (u_height u)
       then Some {| width := pick (u_width u) (opt_field (d_shape d) width);
                    height := pick (u_height u) (opt_field (d_shape d) height) |}
       else d_shape d;
     d_transform :=
       if isSome (u_scaleX u) || isSome (u_scaleY u)
       then Some {| scaleX := pick (u_scaleX u) (opt_field (d_transform d) scaleX);
                    scaleY := pick (u_scaleY u) (opt_field (d_transform d) scaleY) |}
       else d_transform d;
     d_flags :=
       if isSome (u_type u) || isSome (u_text u) || isSome (u_image u)
          || isSome (u_pinColor u) || isSome (u_identityName u)
       then Some {| f_type := pick (u_type u) (opt_field (d_flags d) f_type);
                    f_text := pick (u_text u) (opt_field (d_flags d) f_text);
                    f_image := pick (u_image u) (opt_field (d_flags d) f_image);
                    f_pinColor :=
                      pick (u_pinColor u) (opt_field (d_flags d) f_pinColor);
                    f_identityName :=
                      pick (u_identityName u)
                           (opt_field (d_flags d) f_identityName) |}
       else d_flags d |}.

Definition document_update (id : string) (drawing : Drawing)
    (updateData : UpdateData) (options : Options) (s : Manager) : Manager :=
  let document := applyUpdate updateData drawing in
  let s := with_drawings (set (drawings s) id document) s in
  let s := with_renderWrites (renderWrites s ++ [(id, updateData, options)]) s in
  onNoteUpdate document updateData options (gameUserId s) s.

(** One entry of [updateData] in [loadPositions]:
    [if (saved !== undefined && live !== saved) updateData.k = saved]. *)
Definition numChange (saved live : option Q) : option Q :=
  match saved with
  | Some v => if num_differs live v then Some v else None
  | None => None
  end.

Definition strChange (saved live : option string) : option string :=
  match saved with
  | Some v => if str_differs live v then Some v else None
  | None => None
  end.

Definition textChange (saved live : option jsstring) : option jsstring :=
  match saved with
  | Some v => if text_differs live v then Some v else None
  | None => None
  end.

Definition savedChanges (position : NoteRecord) (drawing : Drawing)
    : UpdateData :=
  {| u_x := numChange (n_x position) (d_x drawing);
     u_y := numChange (n_y position) (d_y drawing);
     u_rotation := numChange (n_rotation position) (d_rotation drawing);
     u_z := numChange (n_z position) (d_z drawing);
     u_width := numChange (n_width position) (opt_field (d_shape drawing) width);
     u_height :=
       numChange (n_height position) (opt_field (d_shape drawing) height);
     u_scaleX :=
       numChange (n_scaleX position) (opt_field (d_transform drawing) scaleX);
     u_scaleY :=
       numChange (n_scaleY position) (opt_field (d_transform drawing) scaleY);
     u_type := strChange (n_type position) (opt_field (d_flags drawing) f_type);
     u_text := textChange (n_text position) (opt_field (d_flags drawing) f_text);
     u_image :=
       strChange (n_image position) (opt_field (d_flags drawing) f_image);
     u_pinColor :=
       strChange (n_pinColor position) (opt_field (d_flags drawing) f_pinColor);
     u_identityName :=
       strChange (n_identityName position)
                 (opt_field (d_flags drawing) f_identityName) |}.

(** [Object.keys(updateData).length > 0] *)
Definition hasKeys (u : UpdateData) : bool :=
  isSome (u_x u) || isSome (u_y u) || isSome (u_rotation u) || isSome (u_z u)
  || isSome (u_width u) || isSome (u_height u)
  || isSome (u_scaleX u) || isSome (u_scaleY u)
  || isSome (u_type u) || isSome (u_text u) || isSome (u_image u)
  || isSome (u_pinColor u) || isSome (u_identityName u).

(** The body of the loop of [loadPositions]. *)
Definition loadEntry (s : Manager) (entry : string * NoteRecord) : Manager :=
  let '(id, position) := entry in
  match get (drawings s) id with
  | Some drawing =>
      let updateData := savedChanges position drawing in
      if hasKeys updateData
      then document_update id drawing updateData (mkOptions true) s
      else s
  | None => s
  end.

Definition loadPositions (s : Manager) : Manager :=
  match scene s with
  | None => s
  | Some sc =>
      let savedPositions :=
        match notePositions sc with
        | Some saved => saved
        | None => []
        end in
      let s := with_positions savedPositions s in
      let s := fold_left loadEntry (entries (positions s)) s in
      emit "positionsLoaded" s
  end.

(** *** Queries *)

Section Search.

(** [String.prototype.toLowerCase] of the host. *)
Variable toLowerCase : jsstring -> jsstring.

Definition textMatches (searchText : jsstring) (pos : NoteRecord) : bool :=
  match n_text pos with
  | Some [] | None => false
  | Some text => includes (toLowerCase text) (toLowerCase searchText)
  end.

Definition searchNotesByText (searchText : jsstring) (s : Manager)
    : list NoteRecord :=
  filter (textMatches searchText) (values (positions s)).

End Search.

(** ToNumber of a coordinate, NaN when it is [undefined]. *)
Definition coordinate (a : option Q) : jsnum :=
  match a with
  | Some q => Fin q
  | None => NaN
  end.

(** [Math.sqrt(dx*dx + dy*dy)] of the loop, with [dx = pos.x - x] and
    [dy = pos.y - y]: each operation is rounded to a double. *)
Definition distanceTo (x y : Q) (pos : NoteRecord) : jsnum :=
  let dx := sub (coordinate (n_x pos)) (Fin x) in
  let dy := sub (coordinate (n_y pos)) (Fin y) in
  Math_sqrt (add (mul dx dx) (mul dy dy)).

(** The body of the loop of [findNearestNote] on [(nearest, minDistance)]. *)
Definition nearestStep (x y : Q) (acc : option NoteRecord * jsnum)
    (pos : NoteRecord) : option NoteRecord * jsnum :=
  let '(nearest, minDistance) := acc in
  let distance := distanceTo x y pos in
  if lt distance minDistance then (Some pos, distance) else acc.

Definition findNearestNote (x y : Q) (maxDistance : option Q) (s : Manager)
    : option NoteRecord :=
  let maxDistance :=
    match maxDistance with
    | Some m => m
    | None => 100%Q
    end in
  fst (fold_left (nearestStep x y) (values (positions s))
                 (None, Fin maxDistance)).

(** *** The hooks of [setupHooks] *)

Inductive HookEvent : Type :=
| updateDrawing (document : Drawing) (updateData : UpdateData)
                (options : Options) (userId : string)
| createDrawing (document : Drawing) (options : Options) (userId : string)
| deleteDrawing (document : Drawing) (options : Options) (userId : string)
| canvasReady.

Definition dispatch (e : HookEvent) (s : Manager) : Manager :=
  match e with
  | updateDrawing document updateData options userId =>
      onNoteUpdate document updateData options userId s
  | createDrawing document options userId =>
      onNoteCreate document options userId s
  | deleteDrawing document options userId =>
      onNoteDelete document options userId s
  | canvasReady => loadPositions s
  end.

(** The snapshot [loadPositions] reads: the flag, or [{}]. *)
Definition stored (sc : Scene) : obj NoteRecord :=
  match notePositions sc with
  | Some saved => saved
  | None => []
  end.

(** The scene after [savePositions], as a function of the state before:
    untouched without a scene or when the write is rejected. *)
Definition savedScene_after (s : Manager) : option Scene :=
  match scene s with
  | None => None
  | Some sc =>
      if setFlagRejects s then Some sc
      else Some (mkScene (Some (positions s)))
  end.

(** What the loop of [findNearestNote] holds after the records [seen]:
    no record of [seen] is below the bound, or [nearest] is the first
    record of [seen] at the least distance, which is [minDistance].
    The distances are the ones the loop computes; a record before
    [nearest] is not at most as far (it is farther, or its distance is
    NaN), a record after it is not nearer. *)
Definition nearest_so_far (x y : Q) (bound : jsnum) (seen : list NoteRecord)
    (acc : option NoteRecord * jsnum) : Prop :=
  match fst acc with
  | None =>
      snd acc = bound
      /\ forall pos, In pos seen -> lt (distanceTo x y pos) bound = false
  | Some pos =>
      exists before after,
        seen = before ++ pos :: after
        /\ snd acc = distanceTo x y pos
        /\ lt (distanceTo x y pos) bound = true
        /\ (forall pos', In pos' before ->
                         le (distanceTo x y pos') (distanceTo x y pos) = false)
        /\ (forall pos', In pos' after ->
                         lt (distanceTo x y pos') (distanceTo x y pos) = false)
  end.

End NotePositionManager.

(** ** Sample data *)

Module Samples.

Import JsObj Board NotePositionManager Truncation.

Definition stickyAt (id : string) (x y : Q) : NoteRecord :=
  mkNote (Some id) (Some x) (Some y) (Some 0) (Some 0)
         (Some 200) (Some 200) (Some 1) (Some 1)
         (Some "sticky"%string) (Some (str "Clue #1"))
         (Some ""%string) (Some ""%string) (Some ""%string) (Some 0%Z).

Definition stickyDrawing (id : string) (x y : Q) : Drawing :=
  mkDrawing id (Some x) (Some y) None None
            (Some (mkShape (Some 200) (Some 200))) None
            (Some (mkFlags (Some "sticky"%string) (Some (str "Clue #1"))
                           None None None)).

Definition noteN1 : NoteRecord := stickyAt "n1" 0 0.

(** A client of user A with one note, a scene and a socket. *)
Definition boardA : Manager :=
  mkManager [("n1"%string, noteN1)] true (Some (mkScene None)) false
            "userA" 1000 [] [] [] [] [] [].

Definition docN1 : Drawing := stickyDrawing "n1" 0 0.
Definition docN2 : Drawing := stickyDrawing "n2" 30 40.

(** Two notes at the same distance from [(1, 0)], the one with the
    higher id first. *)
Definition noteB : NoteRecord := stickyAt "b" 0 0.
Definition noteA : NoteRecord := stickyAt "a" 2 0.

Definition boardTie : Manager :=
  mkManager [("b"%string, noteB); ("a"%string, noteA)] true
            (Some (mkScene None)) false "userA" 1000 [] [] [] [] [] [].

(** A scene whose snapshot moves note [n1], shown on the canvas at its
    old place. *)
Definition savedScene : Scene :=
  mkScene (Some [("n1"%string, stickyAt "n1" 5 7)]).

Definition boardStale : Manager :=
  mkManager [] true (Some savedScene) false "userA" 1000
            [("n1"%string, stickyDrawing "n1" 0 0)] [] [] [] [] [].

(** Two notes far out on the x axis, the first one unit higher: its
    distance from the origin is the greater one, but [1e16 + 1] is
    [1e16] in doubles. *)
Definition noteF1 : NoteRecord := stickyAt "f1" 100000000 1.
Definition noteF2 : NoteRecord := stickyAt "f2" 100000000 0.

Definition boardFar : Manager :=
  mkManager [("f1"%string, noteF1); ("f2"%string, noteF2)] true
            (Some (mkScene None)) false "userA" 1000 [] [] [] [] [] [].

(** [Math.SQRT2], the double next to the square root of 2 (it is above
    it), and a note at [(1, 1)]. *)
Definition SQRT2 : Q := 6369051672525773 # 4503599627370496.

Definition boardDiagonal : Manager :=
  mkManager [("d"%string, stickyAt "d" 1 1)] true
            (Some (mkScene None)) false "userA" 1000 [] [] [] [] [] [].

(** Base limits in the shape of the built-in ones, with another budget
    for sticky notes. *)
Definition flatLimits30 : jsval :=
  VObj [("sticky", VNum (ofZ 30));
        ("photo", VNum (ofZ 15));
        ("index", VNum (ofZ 200))]%string.

(** Base limits with an entry under a font name. *)
Definition arialLimits30 : jsval :=
  VObj [("Arial",
         VObj [("sticky", VNum (ofZ 30));
               ("photo", VNum (ofZ 15));
               ("index", VNum (ofZ 200))])]%string.

Definition letters (n : nat) : jsstring := repeat 97%N n.

Definition text80 : jsstring := letters 80.
Definition text40 : jsstring := letters 40.
(** 80 characters, the first one a space. *)
Definition spaced80 : jsstring := 32%N :: letters 79.

(** Lower case of the ASCII letters, for examples of the search. *)
Definition asciiLower (s : jsstring) : jsstring :=
  map (fun c => if ((65 <=? c) && (c <=? 90))%N then (c + 32)%N else c) s.

End Samples.

(** ** The other methods of [NotePositionManager] *)

Module ManagerQueries.

Import JsObj Board NotePositionManager.

Definition getAllPositions (s : Manager) : obj NoteRecord := positions s.

(** [this.positions[id] || null]; [None] is [null]. *)
Definition getPosition (id : string) (s : Manager) : option NoteRecord :=
  get (positions s) id.

(** [a === b] for an [a] that may be [undefined] and a string [b]. *)
Definition str_is (a : option string) (b : string) : bool :=
  match a with
  | Some s => String.eqb s b
  | None => false
  end.

Definition getNotesByType (type : string) (s : Manager) : list NoteRecord :=
  filter (fun pos => str_is (n_type pos) type) (values (positions s)).

Definition getNotesByPinColor (pinColor : string) (s : Manager)
    : list NoteRecord :=
  filter (fun pos => str_is (n_pinColor pos) pinColor) (values (positions s)).

End ManagerQueries.

(** *** The event system: [on], [off], [emit]

    A callback is a function object; the program only compares callbacks
    by identity, which a number stands for here.  [emit] is given by the
    callbacks it calls, in order; the callbacks themselves are outside
    the program. *)

Module Events.

Import JsObj.

Definition callback := nat.

(** [this.callbacks], a plain object. *)
Definition Callbacks := obj (list callback).

(** What [this.callbacks[event]] is: the array of an own property, a
    member inherited from [Object.prototype] (for an event named
    ["constructor"], ["toString"], ...), or [undefined]. *)
Inductive Slot : Type :=
| Array (registered : list callback)
| Inherited
| Missing.

Definition slot (callbacks : Callbacks) (event : string) : Slot :=
  match get callbacks event with
  | Some registered => Array registered
  | None => if inheritedName event then Inherited else Missing
  end.

(** [on(event, callback)]; [None] is the TypeError of [.push] on a
    member that is not an array. *)
Definition on (event : string) (cb : callback) (callbacks : Callbacks)
    : option Callbacks :=
  let callbacks :=
    match slot callbacks event with
    | Missing => set callbacks event []
    | _ => callbacks
    end in
  match slot callbacks event with
  | Array registered => Some (set callbacks event (registered ++ [cb]))
  | _ => None
  end.

(** [off(event, callback)]; [None] is the TypeError of [.filter]. *)
Definition off (event : string) (cb : callback) (callbacks : Callbacks)
    : option Callbacks :=
  match slot callbacks event with
  | Array registered =>
      Some (set callbacks event
                (filter (fun c => negb (Nat.eqb c cb)) registered))
  | Inherited => None
  | Missing => Some callbacks
  end.

(** The callbacks [emit(event, data)] calls, first to last; [None] is
    the TypeError of [.forEach]. *)
Definition emit_calls (event : string) (callbacks : Callbacks)
    : option (list callback) :=
  match slot callbacks event with
  | Array registered => Some registered
  | Inherited => None
  | Missing => Some []
  end.

End Events.

(** ** The dialog, the sheet and the drawing *)

Module Ui.

Import JsObj Board NotePositionManager Truncation.

Definition assets : string := "modules/investigation-board/assets/".
Definition placeholder : string :=
  "modules/investigation-board/assets/placeholder.webp".

(** *** [showPositionsDialog] *)

(** The text cell of a row:
    [pos.text?.substring(0, 15) || ''] and then
    [pos.text?.length > 15 ? '...' : '']. *)
Definition textCell (text : option jsstring) : jsstring :=
  match text with
  | Some t =>
      firstn 15 t ++ (if (15 <? JsString.length t)%Z then ellipsis else [])
  | None => []
  end.

(** *** [CustomDrawingSheet] *)

Record FormData : Type := mkForm {
  fd_noteType : string;
  fd_text : jsstring;
  fd_image : string;
  fd_identityName : option string
}.

(** What [getData] adds to the data of the sheet. *)
Record SheetData : Type := mkSheet {
  sd_noteType : string;
  sd_text : jsstring;
  sd_image : string;
  sd_identityName : string
}.

Definition getData (object : Drawing) : SheetData :=
  {| sd_noteType := str_or (opt_field (d_flags object) f_type) "sticky";
     sd_text := text_or (opt_field (d_flags object) f_text) (str "Default Text");
     sd_image := str_or (opt_field (d_flags object) f_image) placeholder;
     sd_identityName := str_or (opt_field (d_flags object) f_identityName) "" |}.

(** The [updates] object of [_updateObject]. *)
Definition sheetUpdates (formData : FormData) : UpdateData :=
  {| u_x := None; u_y := None; u_rotation := None; u_z := None;
     u_width := None; u_height := None; u_scaleX := None; u_scaleY := None;
     u_type := Some (fd_noteType formData);
     u_text := Some (fd_text formData);
     u_image := Some (str_or (Some (fd_image formData)) placeholder);
     u_pinColor := None;
     u_identityName := fd_identityName formData |}.

(** [_updateObject] of the sheet of the drawing [id] of the canvas: the
    update, which is awaited, and then the call of [drawing.refresh()],
    which is not: it is recorded in [refreshed], and [refresh] below is
    what it does once [_updateObject] has returned. *)
Definition _updateObject (id : string) (formData : FormData) (s : Manager)
    : Manager :=
  match get (drawings s) id with
  | Some object =>
      let s := document_update id object (sheetUpdates formData)
                               (mkOptions false) s in
      match get (drawings s) id with
      | Some _ => with_refreshed (refreshed s ++ [id]) s
      | None => s
      end
  | None => s
  end.

(** *** [CustomDrawing._updateSprites] *)

(** The settings of the module the drawing and [createNote] read. *)
Record GameSettings : Type := mkSettings {
  font : string;
  baseFontSize : option Q;
  boardMode : string;
  pinColor : string;
  stickyNoteWidth : option Q;
  photoNoteWidth : option Q;
  indexNoteWidth : option Q;
  defaultTextOf : string -> option jsstring;   (* by the key of the setting *)
  baseCharacterLimits : jsval
}.

Definition PIN_COLORS : list string :=
  ["redPin.webp"; "bluePin.webp"; "yellowPin.webp"; "greenPin.webp"]%string.


Definition isPhoto (noteData : NoteFlags) : bool :=
  ManagerQueries.str_is (f_type noteData) "photo".


(** The first branch of [_updateSprites]. *)
Definition futuristicPhoto (settings : GameSettings) (noteData : NoteFlags)
    : bool :=
  isPhoto noteData && String.eqb (boardMode settings) "futuristic".

Definition getBackgroundImage (noteType : option string) (mode : string)
    : string :=
  let isType (t : string) := ManagerQueries.str_is noteType t in
  if String.eqb mode "futuristic" then
    if isType "photo"%string
    then "modules/investigation-board/assets/futuristic_photoFrame.webp"
    else if isType "index"%string
    then "modules/investigation-board/assets/futuristic_note_index.webp"
    else "modules/investigation-board/assets/futuristic_note_white.webp"
  else if String.eqb mode "custom" then
    if isType "photo"%string
    then "modules/investigation-board/assets/custom_photoFrame.webp"
    else if isType "index"%string
    then "modules/investigation-board/assets/custom_note_index.webp"
    else "modules/investigation-board/assets/custom_note_white.webp"
  else
    if isType "photo"%string
    then "modules/investigation-board/assets/photoFrame.webp"
    else if isType "index"%string
    then "modules/investigation-board/assets/note_index.webp"
    else "modules/investigation-board/assets/note_white.webp".

(** The texture path of [bgSprite]. *)
Definition backgroundTexture (settings : GameSettings) (noteData : NoteFlags)
    : string :=
  if futuristicPhoto settings noteData
  then "modules/investigation-board/assets/photoFrame.webp"
  else getBackgroundImage (f_type noteData) (boardMode settings).




(** [futuristicText.text] of the futuristic photo layout. *)
Definition futuristicNoteText (noteData : NoteFlags) : jsstring :=
  text_or (f_text noteData) [].

(** The pin colour a note without one gets; [random] is [Math.random()],
    [None] is the [undefined] of an index outside [PIN_COLORS].  The
    product with the length 4 is exact in doubles. *)
Definition newPinColor (pinSetting : string) (random : Q) : option string :=
  if String.eqb pinSetting "random" then
    let i := Qfloor (random * inject_Z (Z.of_nat (List.length PIN_COLORS))) in
    if (i <? 0)%Z then None else nth_error PIN_COLORS (Z.to_nat i)
  else Some (pinSetting ++ "Pin.webp")%string.

(** The pin handling of [_updateSprites] for the drawing [id] of the
    canvas: a note without a pin colour gets one, and the owner writes it
    into the document. *)
Definition assignPin (settings : GameSettings) (id : string) (random : Q)
    (isOwner : bool) (s : Manager) : Manager :=
  match get (drawings s) id with
  | Some drawing =>
      match d_flags drawing with
      | Some noteData =>
          if String.eqb (pinColor settings) "none" then s
          else
            match f_pinColor noteData with
            | Some EmptyString | None =>
                let chosen := newPinColor (pinColor settings) random in
                if isOwner
                then document_update id drawing
                       (mkUpdate None None None None None None None None
                                 None None None chosen None)
                       (mkOptions false) s
                else s
            | Some _ => s
            end
      | None => s
      end
  | None => s
  end.

(** [CustomDrawing.refresh] of the drawing [id] of the canvas: the
    host's refresh, which draws, and then [_updateSprites], whose pin
    handling is the part that reaches the document and, through the
    [updateDrawing] hook, the manager. *)
Definition refresh (settings : GameSettings) (id : string) (random : Q)
    (isOwner : bool) (s : Manager) : Manager :=
  assignPin settings id random isOwner s.

(** The refreshes started since the state [before]: the ids added to
    [refreshed]. *)
Definition startedSince (before s : Manager) : list string :=
  skipn (List.length (refreshed before)) (refreshed s).

(** A handler, and then the refreshes it started, in the order of the
    calls.  [refresh] is an [async] method that the handlers call
    without [await], so [_updateSprites] runs when the handler has
    returned.  [random] is the value of [Math.random()] in a refresh
    (the handlers of the program start one at most). *)
Definition withRefresh (settings : GameSettings) (random : Q)
    (isOwner : bool) (handler : Manager -> Manager) (s : Manager) : Manager :=
  let s1 := handler s in
  fold_left (fun s id => refresh settings id random isOwner s)
            (startedSince s s1) s1.

(** *** [createNote] *)

(** [Math.round] of a finite number. *)
Definition roundQ (q : Q) : Q := inject_Z (Qfloor (q + (1 # 2))).

Definition noSceneError : string := "Cannot create note: No active scene.".

(** The document [createNote] asks the scene to create, under the id the
    host gives it; [dimsWidth] and [dimsHeight] are [canvas.dimensions].
    The sizes are computed on the rationals themselves: halving is exact
    in doubles, and the quotient of the height is rounded to a whole
    number without being rounded to a double first. *)
Definition newNote (settings : GameSettings) (noteType : string)
    (dimsWidth dimsHeight : Q) (id : string) : Drawing :=
  let stickyW := num_or (stickyNoteWidth settings) 200 in
  let photoW := num_or (photoNoteWidth settings) 225 in
  let indexW := num_or (indexNoteWidth settings) 600 in
  let width :=
    if String.eqb noteType "photo" then photoW
    else if String.eqb noteType "index" then indexW
    else stickyW in
  let height :=
    if String.eqb noteType "photo" then roundQ (photoW / ((225 # 1) / (290 # 1)))
    else if String.eqb noteType "index" then roundQ (indexW / ((600 # 1) / (400 # 1)))
    else stickyW in
  let defaultText :=
    text_or (defaultTextOf settings (noteType ++ "NoteDefaultText")%string)
            (str "Notes") in
  let identityName :=
    if String.eqb noteType "photo" && String.eqb (boardMode settings) "futuristic"
    then Some ""%string
    else None in
  mkDrawing id (Some (dimsWidth / 2)) (Some (dimsHeight / 2)) None None
            (Some (mkShape (Some width) (Some height))) None
            (Some (mkFlags (Some noteType) (Some defaultText) None None
                           identityName)).

(** [createNote]: without a scene an error is logged; otherwise the host
    creates the drawing and runs the [createDrawing] hook for the user of
    this client. *)
Definition createNote (settings : GameSettings) (noteType : string)
    (dimsWidth dimsHeight : Q) (id : string) (s : Manager) : Manager :=
  match scene s with
  | None => with_errors (errors s ++ [noSceneError]) s
  | Some _ =>
      let document := newNote settings noteType dimsWidth dimsHeight id in
      let s := with_drawings (set (drawings s) id document) s in
      onNoteCreate document (mkOptions false) (gameUserId s) s
  end.

End Ui.

(** ** What the theorems speak of *)

Module Specs.

Import JsObj Board NotePositionManager.

(** A drawing shows a saved value. *)
Definition num_shows (saved live : option Q) : Prop :=
  match saved with
  | Some v => exists w, live = Some w /\ (w == v)%Q
  | None => True
  end.

Definition val_shows {A : Type} (saved live : option A) : Prop :=
  match saved with
  | Some v => live = Some v
  | None => True
  end.

(** A drawing shows every value a saved position holds. *)
Definition shows (drawing : Drawing) (position : NoteRecord) : Prop :=
  num_shows (n_x position) (d_x drawing)
  /\ num_shows (n_y position) (d_y drawing)
  /\ num_shows (n_rotation position) (d_rotation drawing)
  /\ num_shows (n_z position) (d_z drawing)
  /\ num_shows (n_width position) (opt_field (d_shape drawing) width)
  /\ num_shows (n_height position) (opt_field (d_shape drawing) height)
  /\ num_shows (n_scaleX position) (opt_field (d_transform drawing) scaleX)
  /\ num_shows (n_scaleY position) (opt_field (d_transform drawing) scaleY)
  /\ val_shows (n_type position) (opt_field (d_flags drawing) f_type)
  /\ val_shows (n_text position) (opt_field (d_flags drawing) f_text)
  /\ val_shows (n_image position) (opt_field (d_flags drawing) f_image)
  /\ val_shows (n_pinColor position) (opt_field (d_flags drawing) f_pinColor)
  /\ val_shows (n_identityName position)
               (opt_field (d_flags drawing) f_identityName).

End Specs.

(** ** More sample data *)

Module MoreSamples.

Import JsObj Board NotePositionManager Truncation Samples Ui.

Definition defaults : GameSettings :=
  mkSettings "Rock Salt"%string (Some 15) "modern"%string "random"%string
             (Some 200) (Some 225) (Some 600)
             (fun _ => None) VUndef.

(** A board with the drawing of note [n1] on the canvas. *)
Definition boardCanvas : Manager :=
  mkManager [("n1"%string, noteN1)] true (Some (mkScene None)) false
            "userA" 1000 [("n1"%string, docN1)] [] [] [] [] [].

Definition form : FormData :=
  mkForm "photo"%string (str "Suspect") ""%string None.

(** The drawing of note [n1] with a pin colour, and a board with it on
    the canvas. *)
Definition pinnedN1 : Drawing :=
  mkDrawing "n1"%string (Some 0) (Some 0) None None
            (Some (mkShape (Some 200) (Some 200))) None
            (Some (mkFlags (Some "sticky"%string) (Some (str "Clue #1"))
                           None (Some "redPin.webp"%string) None)).

Definition boardPinned : Manager :=
  mkManager [("n1"%string, noteN1)] true (Some (mkScene None)) false
            "userA" 1000 [("n1"%string, pinnedN1)] [] [] [] [] [].

(** A drawing of the host that is not a note. *)
Definition plainDrawing : Drawing :=
  mkDrawing "d9"%string (Some 1) (Some 2) None None None None None.

End MoreSamples.

(** * Properties *)

(** ** Plain objects *)

Module JsObjFacts.

Import JsObj.

Section Facts.
Variable V : Type.
Implicit Types (o : obj V) (k : string) (v : V).

Lemma get_set_same o k v : get (set o k v) k = Some v.
Proof.
  induction o as [|[k' v'] r IH]; simpl.
  - now rewrite String.eqb_refl.
  - destruct (String.eqb k' k) eqn:E; simpl; rewrite E; auto.
Qed.

Lemma get_set_other o k k' v : k <> k' -> get (set o k v) k' = get o k'.
Proof.
  intros Hne.
  induction o as [|[k0 v0] r IH]; simpl.
  - destruct (String.eqb k k') eqn:E; auto.
    apply String.eqb_eq in E. contradiction.
  - destruct (String.eqb k0 k) eqn:E; simpl.
    + apply String.eqb_eq in E. subst k0.
      destruct (String.eqb k k') eqn:E'; auto.
      apply String.eqb_eq in E'. contradiction.
    + now rewrite IH.
Qed.


End Facts.

End JsObjFacts.

Module ManagerFacts.

Import JsObj JsObjFacts Board NotePositionManager Samples.

(** *** What [savePositions] touches *)

Lemma savePositions_positions s : positions (savePositions s) = positions s.
Proof.
  unfold savePositions.
  destruct (scene s); [destruct (setFlagRejects s)|]; reflexivity.
Qed.

Lemma savePositions_sent s : sent (savePositions s) = sent s.
Proof.
  unfold savePositions.
  destruct (scene s); [destruct (setFlagRejects s)|]; reflexivity.
Qed.

Lemma savePositions_socket s : socket (savePositions s) = socket s.
Proof.
  unfold savePositions.
  destruct (scene s); [destruct (setFlagRejects s)|]; reflexivity.
Qed.

Lemma savePositions_gameUserId s :
  gameUserId (savePositions s) = gameUserId s.
Proof.
  unfold savePositions.
  destruct (scene s); [destruct (setFlagRejects s)|]; reflexivity.
Qed.

Lemma savePositions_scene s : scene (savePositions s) = savedScene_after s.
Proof.
  unfold savePositions, savedScene_after.
  destruct (scene s) eqn:E; [destruct (setFlagRejects s)|]; simpl; auto.
Qed.

(** *** [updatePosition], field by field *)

Lemma updatePosition_positions document userId s :
  positions (updatePosition document userId s)
  = set (positions s) (d_id document) (positionOf document (now s)).
Proof.
  unfold updatePosition. simpl.
  match goal with |- context [if ?c then _ else _] => destruct c end;
    simpl; now rewrite savePositions_positions.
Qed.

Lemma updatePosition_sent document userId s :
  sent (updatePosition document userId s)
  = if socket s && String.eqb (gameUserId s) userId
    then sent s ++ [mkMessage (Some (d_id document))
                              (Some (positionOf document (now s)))]
    else sent s.
Proof.
  unfold updatePosition. simpl.
  rewrite savePositions_socket, savePositions_gameUserId. simpl.
  destruct (socket s && String.eqb (gameUserId s) userId);
    simpl; now rewrite savePositions_sent.
Qed.

Lemma updatePosition_scene document userId s :
  scene (updatePosition document userId s)
  = savedScene_after
      (with_positions
         (set (positions s) (d_id document) (positionOf document (now s))) s).
Proof.
  unfold updatePosition. simpl.
  match goal with |- context [if ?c then _ else _] => destruct c end;
    simpl; now rewrite savePositions_scene.
Qed.

(** *** The refreshes a handler starts *)

Lemma skipn_length_app {A : Type} (l r : list A) :
  skipn (List.length l) (l ++ r) = r.
Proof. induction l; simpl; auto. Qed.

Lemma startedSince_same before s :
  refreshed s = refreshed before -> Ui.startedSince before s = [].
Proof. intros E. unfold Ui.startedSince. rewrite E. apply skipn_all. Qed.

End ManagerFacts.

(** ** Local and remote changes *)

Module SyncProperties.

Import JsObj JsObjFacts Board NotePositionManager Samples ManagerFacts.

(** C1.  A message whose position is [null] is meant as a deletion
    (the sender says so), but [onExternalPositionUpdate] only acts on a
    message with an id and a position: it leaves the whole manager as it
    was, and the record of the deleted note stays in [positions]. *)
Theorem onExternalPositionUpdate_null_keeps_record :
  (forall id s, onExternalPositionUpdate (mkMessage id None) s = s)
  /\ get (positions
            (onExternalPositionUpdate (mkMessage (Some "n1"%string) None) boardA))
         "n1"
     = Some noteN1.
Proof.
  split.
  - intros [id|] s; reflexivity.
  - reflexivity.
Qed.

(** C2, as the specification has it, fails: an event of another user
    changes both [positions] and the scene flag. *)
Lemma updatePosition_other_user_changes_state :
  "userB"%string <> gameUserId boardA
  /\ positions (updatePosition docN2 "userB" boardA) <> positions boardA
  /\ scene (updatePosition docN2 "userB" boardA) <> scene boardA.
Proof.
  repeat split; vm_compute; discriminate.
Qed.

(** C2, amended.  [updatePosition] always writes the record built from
    the document into [positions] and saves the map (into the scene
    flag, when there is a scene and the write is accepted); the user id
    only decides the broadcast: the message goes out exactly when the
    socket is set and the user id is the one of this client. *)
Theorem updatePosition_user_gates_broadcast_only :
  forall document userId s,
    let position := positionOf document (now s) in
    let s' := updatePosition document userId s in
    positions s' = set (positions s) (d_id document) position
    /\ scene s' =
         match scene s with
         | None => None
         | Some sc =>
             if setFlagRejects s then Some sc
             else Some (mkScene (Some (positions s')))
         end
    /\ sent s' =
         if socket s && String.eqb (gameUserId s) userId
         then sent s ++ [mkMessage (Some (d_id document)) (Some position)]
         else sent s.
Proof.
  intros document userId s position s'. subst s' position.
  rewrite updatePosition_positions, updatePosition_scene,
    updatePosition_sent.
  repeat split.
Qed.

(** C3, as the specification has it, fails: with [noSocket] set, the
    create handler and the delete handler still change [positions], the
    scene flag and the messages sent. *)
Lemma create_and_delete_ignore_noSocket :
  noSocket (mkOptions true) = true
  /\ positions (onNoteCreate docN2 (mkOptions true) "userA" boardA)
     <> positions boardA
  /\ scene (onNoteCreate docN2 (mkOptions true) "userA" boardA)
     <> scene boardA
  /\ sent (onNoteCreate docN2 (mkOptions true) "userA" boardA)
     <> sent boardA
  /\ positions (onNoteDelete docN1 (mkOptions true) "userA" boardA)
     <> positions boardA
  /\ sent (onNoteDelete docN1 (mkOptions true) "userA" boardA)
     <> sent boardA.
Proof.
  repeat split; vm_compute; discriminate.
Qed.

(** C3, amended.  With [options.noSocket] set, the update handler does
    nothing at all: the manager, the scene and the messages sent are
    unchanged.  The create and the delete handler do not look at the
    flag: they act as they do without it. *)
Theorem noSocket_silences_update_only :
  forall document updateData options userId s,
    noSocket options = true ->
    onNoteUpdate document updateData options userId s = s
    /\ onNoteCreate document options userId s
       = onNoteCreate document (mkOptions false) userId s
    /\ onNoteDelete document options userId s
       = onNoteDelete document (mkOptions false) userId s.
Proof.
  intros document updateData options userId s H.
  unfold onNoteUpdate. rewrite H. repeat split.
Qed.

Lemma noSocket_silences_update_only_witness :
  onNoteUpdate docN2 (savedChanges noteN1 docN2) (mkOptions true) "userA" boardA
  = boardA
  /\ onNoteCreate docN2 (mkOptions true) "userA" boardA
     = onNoteCreate docN2 (mkOptions false) "userA" boardA
  /\ onNoteDelete docN2 (mkOptions true) "userA" boardA
     = onNoteDelete docN2 (mkOptions false) "userA" boardA.
Proof.
  apply (noSocket_silences_update_only docN2 (savedChanges noteN1 docN2)
           (mkOptions true) "userA" boardA).
  reflexivity.
Defined.


(** *** [loadPositions] *)

Lemma Qeq_bool_same q : Qeq_bool q q = true.
Proof. apply Qeq_bool_iff. reflexivity. Qed.

Lemma jsstring_eqb_same t : JsString.eqb t t = true.
Proof. unfold JsString.eqb. destruct (list_eq_dec N.eq_dec t t); congruence. Qed.

Lemma numChange_settles saved live :
  numChange saved (pick (numChange saved live) live) = None.
Proof.
  destruct saved as [v|]; [|reflexivity].
  destruct live as [w|]; simpl.
  - destruct (Qeq_bool w v) eqn:E; simpl; rewrite ?E, ?Qeq_bool_same; reflexivity.
  - now rewrite Qeq_bool_same.
Qed.

Lemma strChange_settles saved live :
  strChange saved (pick (strChange saved live) live) = None.
Proof.
  destruct saved as [v|]; [|reflexivity].
  destruct live as [w|]; simpl.
  - destruct (String.eqb w v) eqn:E; simpl; rewrite ?E, ?String.eqb_refl; reflexivity.
  - now rewrite String.eqb_refl.
Qed.

Lemma textChange_settles saved live :
  textChange saved (pick (textChange saved live) live) = None.
Proof.
  destruct saved as [v|]; [|reflexivity].
  destruct live as [w|]; simpl.
  - destruct (JsString.eqb w v) eqn:E; simpl;
      rewrite ?E, ?jsstring_eqb_same; reflexivity.
  - now rewrite jsstring_eqb_same.
Qed.

(** After the update the drawing shows what the update carried. *)
Lemma applyUpdate_shape u d :
  opt_field (d_shape (applyUpdate u d)) width
  = pick (u_width u) (opt_field (d_shape d) width)
  /\ opt_field (d_shape (applyUpdate u d)) height
     = pick (u_height u) (opt_field (d_shape d) height).
Proof.
  unfold applyUpdate; simpl.
  destruct (u_width u), (u_height u); simpl; auto.
Qed.

Lemma applyUpdate_transform u d :
  opt_field (d_transform (applyUpdate u d)) scaleX
  = pick (u_scaleX u) (opt_field (d_transform d) scaleX)
  /\ opt_field (d_transform (applyUpdate u d)) scaleY
     = pick (u_scaleY u) (opt_field (d_transform d) scaleY).
Proof.
  unfold applyUpdate; simpl.
  destruct (u_scaleX u), (u_scaleY u); simpl; auto.
Qed.

Lemma applyUpdate_flags u d :
  opt_field (d_flags (applyUpdate u d)) f_type
  = pick (u_type u) (opt_field (d_flags d) f_type)
  /\ opt_field (d_flags (applyUpdate u d)) f_text
     = pick (u_text u) (opt_field (d_flags d) f_text)
  /\ opt_field (d_flags (applyUpdate u d)) f_image
     = pick (u_image u) (opt_field (d_flags d) f_image)
  /\ opt_field (d_flags (applyUpdate u d)) f_pinColor
     = pick (u_pinColor u) (opt_field (d_flags d) f_pinColor)
  /\ opt_field (d_flags (applyUpdate u d)) f_identityName
     = pick (u_identityName u) (opt_field (d_flags d) f_identityName).
Proof.
  unfold applyUpdate; simpl.
  destruct (u_type u), (u_text u), (u_image u), (u_pinColor u),
    (u_identityName u); simpl; auto 10.
Qed.

(** A drawing corrected from a saved position needs no correction. *)
Lemma savedChanges_settles position drawing :
  hasKeys (savedChanges position
             (applyUpdate (savedChanges position drawing) drawing)) = false.
Proof.
  set (u := savedChanges position drawing).
  destruct (applyUpdate_shape u drawing) as [Hw Hh].
  destruct (applyUpdate_transform u drawing) as [Hsx Hsy].
  destruct (applyUpdate_flags u drawing) as (Ht & Hx & Hi & Hp & Hn).
  unfold hasKeys, savedChanges at 1 2 3 4 5 6 7 8 9 10 11 12 13.
  cbn [u_x u_y u_rotation u_z u_width u_height u_scaleX u_scaleY u_type
       u_text u_image u_pinColor u_identityName].
  rewrite Hw, Hh, Hsx, Hsy, Ht, Hx, Hi, Hp, Hn.
  unfold applyUpdate at 1 2 3 4.
  cbn [d_x d_y d_rotation d_z].
  subst u. unfold savedChanges.
  cbn [u_x u_y u_rotation u_z u_width u_height u_scaleX u_scaleY u_type
       u_text u_image u_pinColor u_identityName].
  now rewrite !numChange_settles, !strChange_settles, !textChange_settles.
Qed.

(** The loop body, with the hook run: the update handler returns at
    once, because the write carries [noSocket]. *)
Lemma loadEntry_eq s id position :
  loadEntry s (id, position)
  = match get (drawings s) id with
    | Some drawing =>
        let u := savedChanges position drawing in
        if hasKeys u
        then with_renderWrites (renderWrites s ++ [(id, u, mkOptions true)])
               (with_drawings (set (drawings s) id (applyUpdate u drawing)) s)
        else s
    | None => s
    end.
Proof. reflexivity. Qed.

Lemma loadEntry_shape s entry :
  exists ds ws,
    loadEntry s entry
    = with_renderWrites (renderWrites s ++ ws) (with_drawings ds s)
    /\ Forall (fun w => noSocket (snd w) = true) ws.
Proof.
  destruct entry as [id position]. rewrite loadEntry_eq.
  assert (Hid : exists ds ws,
    s = with_renderWrites (renderWrites s ++ ws) (with_drawings ds s)
    /\ Forall (fun w => noSocket (snd w) = true) ws).
  { exists (drawings s), []. split; [|constructor].
    destruct s; unfold with_renderWrites, with_drawings; simpl.
    now rewrite app_nil_r. }
  destruct (get (drawings s) id) as [drawing|]; [|exact Hid].
  cbv zeta. destruct (hasKeys _); [|exact Hid].
  eexists _, _. split; [reflexivity|].
  repeat constructor.
Qed.

Lemma loadLoop_shape l : forall s,
  exists ds ws,
    fold_left loadEntry l s
    = with_renderWrites (renderWrites s ++ ws) (with_drawings ds s)
    /\ Forall (fun w => noSocket (snd w) = true) ws.
Proof.
  induction l as [|e l IH]; intros s; simpl.
  - exists (drawings s), []. split; [|constructor].
    destruct s; unfold with_renderWrites, with_drawings; simpl.
    now rewrite app_nil_r.
  - destruct (loadEntry_shape s e) as (ds & ws & E & F).
    destruct (IH (loadEntry s e)) as (ds' & ws' & E' & F').
    exists ds', (ws ++ ws'). split.
    + rewrite E'. rewrite E. unfold with_renderWrites, with_drawings; simpl.
      now rewrite app_assoc.
    + apply Forall_app; auto.
Qed.

Lemma loadEntry_other s id position id' :
  id <> id' ->
  get (drawings (loadEntry s (id, position))) id' = get (drawings s) id'.
Proof.
  intros Hne. rewrite loadEntry_eq.
  destruct (get (drawings s) id) as [drawing|]; [|reflexivity].
  cbv zeta. destruct (hasKeys _); [|reflexivity].
  simpl. now apply get_set_other.
Qed.

Lemma loadLoop_other l id' : forall s,
  ~ In id' (keys l) ->
  get (drawings (fold_left loadEntry l s)) id' = get (drawings s) id'.
Proof.
  induction l as [|[id position] l IH]; intros s Hn; simpl; [reflexivity|].
  simpl in Hn. rewrite IH by tauto.
  apply loadEntry_other. tauto.
Qed.

Lemma loadEntry_settles s id position drawing :
  get (drawings (loadEntry s (id, position))) id = Some drawing ->
  hasKeys (savedChanges position drawing) = false.
Proof.
  rewrite loadEntry_eq.
  destruct (get (drawings s) id) as [d0|] eqn:G.
  - cbv zeta. destruct (hasKeys (savedChanges position d0)) eqn:K.
    + simpl. rewrite get_set_same. intros [= <-].
      apply savedChanges_settles.
    + rewrite G. now intros [= <-].
  - rewrite G. discriminate.
Qed.

(** After the loop every drawing on the canvas agrees with its saved
    position. *)
Lemma loadLoop_settles l : forall s,
  wf l ->
  forall id position drawing,
    In (id, position) l ->
    get (drawings (fold_left loadEntry l s)) id = Some drawing ->
    hasKeys (savedChanges position drawing) = false.
Proof.
  unfold wf.
  induction l as [|[id0 p0] l IH]; intros s Hwf id position drawing Hin Hget;
    [contradiction|].
  simpl in Hwf. inversion Hwf as [|? ? Hnin Hnd]; subst.
  simpl in Hget. destruct Hin as [[= -> ->]|Hin].
  - rewrite loadLoop_other in Hget by assumption.
    eapply loadEntry_settles; eauto.
  - eapply IH; eauto.
Qed.

(** On a canvas that agrees with the saved positions the loop does
    nothing. *)
Lemma loadLoop_settled l : forall s,
  (forall id position drawing,
      In (id, position) l ->
      get (drawings s) id = Some drawing ->
      hasKeys (savedChanges position drawing) = false) ->
  fold_left loadEntry l s = s.
Proof.
  induction l as [|[id position] l IH]; intros s H; [reflexivity|].
  cbn [fold_left].
  assert (E : loadEntry s (id, position) = s).
  { rewrite loadEntry_eq.
    destruct (get (drawings s) id) as [drawing|] eqn:G; [|reflexivity].
    cbv zeta. rewrite (H id position drawing); simpl; auto. }
  rewrite E. apply IH. intros. eapply H; eauto. now right.
Qed.

Lemma loadPositions_scene s : scene (loadPositions s) = scene s.
Proof.
  unfold loadPositions. destruct (scene s) as [sc|] eqn:E; [|congruence].
  unfold entries.
  destruct (loadLoop_shape (positions (with_positions (stored sc) s))
              (with_positions (stored sc) s)) as (ds & ws & Eq & _).
  unfold stored in Eq. simpl in *. rewrite Eq. simpl. assumption.
Qed.

(** *** A rejected write *)

Lemma loadEntry_setFlagRejects b s entry :
  loadEntry (with_setFlagRejects b s) entry
  = with_setFlagRejects b (loadEntry s entry).
Proof.
  destruct entry as [id position]. unfold loadEntry. simpl.
  destruct (get (drawings s) id); [|reflexivity].
  destruct (hasKeys _); reflexivity.
Qed.

Lemma loadPositions_setFlagRejects b s :
  loadPositions (with_setFlagRejects b s)
  = with_setFlagRejects b (loadPositions s).
Proof.
  unfold loadPositions. simpl.
  destruct (scene s) as [sc|]; [|reflexivity].
  unfold entries. simpl.
  set (l := match notePositions sc with Some saved => saved | None => [] end).
  change (with_positions l (with_setFlagRejects b s))
    with (with_setFlagRejects b (with_positions l s)).
  generalize (with_positions l s). clear s.
  induction l as [|e l IH]; intros s; simpl; [reflexivity|].
  rewrite loadEntry_setFlagRejects. apply IH.
Qed.

(** C9.  When [scene.setFlag] rejects, [savePositions] catches the
    error and logs it; whatever the hook, the manager ends with the same
    [positions], messages sent and events emitted as after an accepted
    write: the change made in memory before the write stays.  The scene
    keeps its old flag, and a write that would have changed the flag
    leaves exactly one logged error. *)
Theorem rejected_write_keeps_memory :
  forall (e : HookEvent) (s : Manager),
    let ok := dispatch e (with_setFlagRejects false s) in
    let ko := dispatch e (with_setFlagRejects true s) in
    positions ko = positions ok
    /\ sent ko = sent ok
    /\ emitted ko = emitted ok
    /\ scene ko = scene s
    /\ (scene ok <> scene s -> errors ko = errors s ++ [saveError])
    /\ savePositions (with_setFlagRejects true s)
       = match scene s with
         | Some _ =>
             with_errors (errors s ++ [saveError]) (with_setFlagRejects true s)
         | None => with_setFlagRejects true s
         end.
Proof.
  intros e s ok ko. subst ok ko.
  assert (Hsave : savePositions (with_setFlagRejects true s)
       = match scene s with
         | Some _ =>
             with_errors (errors s ++ [saveError]) (with_setFlagRejects true s)
         | None => with_setFlagRejects true s
         end).
  { unfold savePositions. simpl. destruct (scene s); reflexivity. }
  assert (Hupd : forall document userId,
    let ok := updatePosition document userId (with_setFlagRejects false s) in
    let ko := updatePosition document userId (with_setFlagRejects true s) in
    positions ko = positions ok /\ sent ko = sent ok
    /\ emitted ko = emitted ok /\ scene ko = scene s
    /\ (scene ok <> scene s -> errors ko = errors s ++ [saveError])).
  { intros document userId. unfold updatePosition, savePositions. simpl.
    destruct (scene s) as [sc|] eqn:Esc; simpl;
      destruct (socket s && String.eqb (gameUserId s) userId); simpl;
      repeat split; auto; try congruence. }
  destruct e as [document updateData options userId
                |document options userId
                |document options userId| ]; simpl.
  - unfold onNoteUpdate.
    destruct (noSocket options).
    { repeat split; auto. intros H; now elim H. }
    destruct (d_flags document).
    2:{ repeat split; auto. intros H; now elim H. }
    match goal with |- context [if ?c then _ else _] => destruct c end.
    + destruct (Hupd document userId) as (H1 & H2 & H3 & H4 & H5).
      repeat split; auto.
    + repeat split; auto. intros H; now elim H.
  - unfold onNoteCreate. destruct (d_flags document).
    + destruct (Hupd document userId) as (H1 & H2 & H3 & H4 & H5).
      repeat split; auto.
    + repeat split; auto. intros H; now elim H.
  - unfold onNoteDelete. simpl.
    destruct (isSome (d_flags document)
              && isSome (get (positions s) (d_id document))).
    + unfold savePositions. simpl.
      destruct (scene s) as [sc|] eqn:Esc; simpl;
        destruct (socket s && String.eqb (gameUserId s) userId); simpl;
        repeat split; auto; try congruence.
    + repeat split; auto. intros H; now elim H.
  - rewrite !loadPositions_setFlagRejects. simpl.
    repeat split; auto using loadPositions_scene.
    intros H. elim H. apply loadPositions_scene.
Qed.

(** C7.  With a scene whose snapshot is a well-formed object,
    [loadPositions] makes [positions] equal to the snapshot, sends no
    message, leaves the scene flag alone, and every write to a drawing it
    makes carries [noSocket], so that the update handler returns at once.
    A second call with the same scene leaves [positions] and the
    drawings as they are and makes no further write. *)
Theorem loadPositions_converges :
  forall (s : Manager) (sc : Scene),
    scene s = Some sc ->
    wf (stored sc) ->
    let s1 := loadPositions s in
    let s2 := loadPositions s1 in
    positions s1 = stored sc
    /\ sent s1 = sent s
    /\ scene s1 = scene s
    /\ (exists ws, renderWrites s1 = renderWrites s ++ ws
                   /\ Forall (fun w => noSocket (snd w) = true) ws)
    /\ positions s2 = positions s1
    /\ drawings s2 = drawings s1
    /\ renderWrites s2 = renderWrites s1
    /\ sent s2 = sent s1
    /\ scene s2 = scene s1.
Proof.
  intros s sc Hsc Hwf s1 s2.
  assert (E1 : s1 = emit "positionsLoaded"
                 (fold_left loadEntry (stored sc) (with_positions (stored sc) s))).
  { subst s1. unfold loadPositions. now rewrite Hsc. }
  destruct (loadLoop_shape (stored sc) (with_positions (stored sc) s))
    as (ds & ws & Eq & F).
  assert (Hscene1 : scene s1 = Some sc).
  { rewrite E1, Eq. simpl. assumption. }
  assert (E2 : s2 = emit "positionsLoaded" (with_positions (stored sc) s1)).
  { subst s2. unfold loadPositions at 1. rewrite Hscene1.
    fold (stored sc). unfold entries. cbn [positions with_positions].
    rewrite loadLoop_settled; [reflexivity|].
    intros id position drawing Hin Hget.
    eapply (loadLoop_settles (with_positions (stored sc) s) Hwf); eauto.
    rewrite E1 in Hget. exact Hget. }
  clearbody s1 s2. subst s2 s1. rewrite Eq. simpl.
  repeat split; auto.
  now exists ws.
Qed.

Lemma loadPositions_converges_witness :
  let s1 := loadPositions boardStale in
  let s2 := loadPositions s1 in
  positions s1 = stored savedScene
  /\ sent s1 = sent boardStale
  /\ scene s1 = scene boardStale
  /\ (exists ws, renderWrites s1 = renderWrites boardStale ++ ws
                 /\ Forall (fun w => noSocket (snd w) = true) ws)
  /\ positions s2 = positions s1
  /\ drawings s2 = drawings s1
  /\ renderWrites s2 = renderWrites s1
  /\ sent s2 = sent s1
  /\ scene s2 = scene s1.
Proof.
  apply (loadPositions_converges boardStale (sc := savedScene)).
  - reflexivity.
  - unfold wf. simpl. constructor; [simpl; tauto | constructor].
Defined.

End SyncProperties.

(** ** Strings *)

Module JsStringFacts.

Lemma startsWith_spec p : forall s,
  startsWith s p = true <-> exists post, s = p ++ post.
Proof.
  induction p as [|a p IH]; intros s.
  - split; [intros _; now exists s | now destruct s].
  - destruct s as [|b s]; simpl.
    + split; [discriminate | intros [post H]; discriminate].
    + rewrite andb_true_iff, N.eqb_eq, IH. split.
      * intros [-> [post ->]]. now exists post.
      * intros [post [= -> ->]]. split; [reflexivity | now exists post].
Qed.

(** [includes] decides the occurrence of the argument in the string. *)
Lemma includes_spec p : forall s,
  includes s p = true <-> occurs_in p s.
Proof.
  unfold occurs_in.
  induction s as [|b s IH]; cbn [includes];
    rewrite orb_true_iff, startsWith_spec.
  - split.
    + intros [[post H]|H]; [|discriminate]. now exists [], post.
    + intros (pre & post & H). left.
      destruct pre; [now exists post | discriminate].
  - rewrite IH. split.
    + intros [[post H]|(pre & post & H)].
      * now exists [], post.
      * exists (b :: pre), post. simpl. now rewrite H.
    + intros (pre & post & H). destruct pre as [|c pre].
      * left. now exists post.
      * right. injection H as -> ->. now exists pre, post.
Qed.

Lemma includes_empty s : includes s [] = true.
Proof. apply includes_spec. now exists [], s. Qed.

End JsStringFacts.

(** ** Numbers *)

Module JsNumFacts.

Lemma Qltb_iff a b : Qltb a b = true <-> (a < b)%Q.
Proof.
  unfold Qltb. rewrite negb_true_iff. split.
  - intros H. apply Qnot_le_lt. intros L.
    apply Qle_bool_iff in L. congruence.
  - intros H. destruct (Qle_bool b a) eqn:E; [|reflexivity].
    apply Qle_bool_iff in E. exfalso. now apply (Qlt_not_le a b).
Qed.

Lemma Qltb_false_iff a b : Qltb a b = false <-> (b <= a)%Q.
Proof.
  unfold Qltb. rewrite negb_false_iff. apply Qle_bool_iff.
Qed.

Lemma Qle_bool_false_iff a b : Qle_bool a b = false <-> (b < a)%Q.
Proof.
  rewrite <- Qltb_iff. unfold Qltb. now rewrite negb_true_iff.
Qed.

(** The comparisons of rationals, as propositions. *)
Ltac q_prop :=
  repeat match goal with
  | H : Qltb _ _ = true |- _ => apply Qltb_iff in H
  | H : Qltb _ _ = false |- _ => apply Qltb_false_iff in H
  | H : Qle_bool _ _ = true |- _ => apply Qle_bool_iff in H
  | H : Qle_bool _ _ = false |- _ => apply Qle_bool_false_iff in H
  | |- Qltb _ _ = true => apply Qltb_iff
  | |- Qltb _ _ = false => apply Qltb_false_iff
  | |- Qle_bool _ _ = true => apply Qle_bool_iff
  | |- Qle_bool _ _ = false => apply Qle_bool_false_iff
  end.

Ltac order_cases :=
  cbn in *; try discriminate; try reflexivity; q_prop; lra.

(** [<] and [<=] on numbers: NaN compares with nothing, the two zeros
    are equal. *)
Lemma lt_le_false a b : lt b a = true -> le a b = false.
Proof. destruct a, b; intros H; order_cases. Qed.

Lemma le_lt_trans a b c : le a b = true -> lt b c = true -> lt a c = true.
Proof. destruct a, b, c; intros H1 H2; order_cases. Qed.

Lemma lt_le_trans a b c : lt a b = true -> le b c = true -> lt a c = true.
Proof. destruct a, b, c; intros H1 H2; order_cases. Qed.

Lemma lt_trans a b c : lt a b = true -> lt b c = true -> lt a c = true.
Proof. destruct a, b, c; intros H1 H2; order_cases. Qed.

Lemma lt_le a b : lt a b = true -> le a b = true.
Proof. destruct a, b; intros H; order_cases. Qed.

(** Of two numbers that are below something, hence not NaN, one is at
    most the other. *)
Lemma not_lt_le a b u v :
  lt a u = true -> lt b v = true -> lt b a = false -> le a b = true.
Proof.
  destruct a, b; intros H1 H2 H3;
    try (destruct u; discriminate); try (destruct v; discriminate);
    order_cases.
Qed.

(** What is not at most a number is above it, or NaN. *)
Lemma not_le_lt_or_nan a b u :
  lt b u = true -> le a b = false -> lt b a = true \/ a = NaN.
Proof.
  destruct a, b; intros H1 H2; try (destruct u; discriminate);
    try (now right); left; order_cases.
Qed.

Lemma le_Fin_iff a b : le (Fin a) (Fin b) = true <-> (a <= b)%Q.
Proof. apply Qle_bool_iff. Qed.

(** Rounding keeps the sign. *)
Lemma binary_round_aux_sign prec emax sx mx ex lx :
  match binary_round_aux prec emax sx mx ex lx with
  | S754_zero s | S754_infinity s | S754_finite s _ _ => s = sx
  | S754_nan => True
  end.
Proof.
  unfold binary_round_aux.
  destruct (shr_fexp prec emax mx ex lx) as [mrs' e'].
  destruct (shr_fexp prec emax _ e' loc_Exact) as [mrs'' e''].
  destruct (shr_m mrs''); [reflexivity| |exact I].
  destruct (_ <=? _)%Z; reflexivity.
Qed.

(** *** The values are the doubles *)

Lemma shiftl_nat_pow p : Zpos (Pos.shiftl_nat 1 p) = (2 ^ Z.of_nat p)%Z.
Proof.
  induction p as [|p IH].
  - reflexivity.
  - change (Pos.shiftl_nat 1 (S p)) with (xO (Pos.shiftl_nat 1 p)).
    rewrite Pos2Z.inj_xO, IH, Nat2Z.inj_succ, Z.pow_succ_r by lia. reflexivity.
Qed.

Lemma digits2_log2 m : Zpos (digits2_pos m) = (Z.log2 (Zpos m) + 1)%Z.
Proof.
  induction m as [m IH|m IH|]; cbn [digits2_pos]; try reflexivity.
  - rewrite Pos2Z.inj_succ, IH. destruct m; cbn; lia.
  - rewrite Pos2Z.inj_succ, IH. destruct m; cbn; lia.
Qed.

(** [lowest m p] is [n / 2^j] with [m = n * 2^(p - j)]. *)
Lemma lowest_spec m : forall p,
  exists n j, lowest m p = Zpos n # Pos.shiftl_nat 1 j
              /\ (j <= p)%nat
              /\ Zpos m = (Zpos n * 2 ^ Z.of_nat (p - j))%Z.
Proof.
  induction m as [m IH|m IH|]; intros p.
  - exists (m~1)%positive, p. cbn [lowest].
    destruct p; (split; [reflexivity|split; [lia|]]);
      rewrite Nat.sub_diag; cbn; lia.
  - destruct p as [|p].
    + exists (m~0)%positive, 0%nat. repeat split; cbn; lia.
    + cbn [lowest]. destruct (IH p) as (n & j & E & Hj & Hm).
      exists n, j. split; [exact E|]. split; [lia|].
      rewrite Pos2Z.inj_xO, Hm.
      replace (S p - j)%nat with (S (p - j)) by lia.
      rewrite Nat2Z.inj_succ, Z.pow_succ_r by lia. lia.
  - exists 1%positive, p. cbn [lowest].
    destruct p; (split; [reflexivity|split; [lia|]]);
      rewrite Nat.sub_diag; cbn; lia.
Qed.

(** The double of a mantissa and an exponent, as [SF2Prim] builds it. *)
Lemma exactDouble_up m e n k :
  bounded prec emax m e = true ->
  (e <= k)%Z ->
  Zpos m = (Zpos n * 2 ^ (k - e))%Z ->
  exactDouble n k
  = Some (Z.ldexp (PrimFloat.of_uint63 (Uint63.of_Z (Zpos m))) e).
Proof.
  intros B Hk Hm. unfold bounded, canonical_mantissa in B.
  apply andb_true_iff in B. destruct B as [C B].
  apply Z.eqb_eq in C.
  unfold exactDouble.
  assert (D : (Zpos (digits2_pos n) + k = Zpos (digits2_pos m) + e)%Z).
  { rewrite !digits2_log2, Hm, Z.log2_mul_pow2 by lia. lia. }
  rewrite D, C, B.
  destruct (k - e)%Z as [|s|s] eqn:S; try lia.
  - rewrite Z.pow_0_r, Z.mul_1_r in Hm. now rewrite Hm.
  - rewrite Pos2Z.inj_mul, Pos2Z.inj_pow, <- Hm. reflexivity.
Qed.

Lemma exactDouble_down m e n k :
  bounded prec emax m e = true ->
  (k <= e)%Z ->
  Zpos n = (Zpos m * 2 ^ (e - k))%Z ->
  exactDouble n k
  = Some (Z.ldexp (PrimFloat.of_uint63 (Uint63.of_Z (Zpos m))) e).
Proof.
  intros B Hk Hn. unfold bounded, canonical_mantissa in B.
  apply andb_true_iff in B. destruct B as [C B].
  apply Z.eqb_eq in C.
  unfold exactDouble.
  assert (D : (Zpos (digits2_pos n) + k = Zpos (digits2_pos m) + e)%Z).
  { rewrite !digits2_log2, Hn, Z.log2_mul_pow2 by lia. lia. }
  rewrite D, C, B.
  destruct (k - e)%Z as [|s|s] eqn:S; try lia.
  - replace (e - k)%Z with 0%Z in Hn by lia.
    rewrite Z.pow_0_r, Z.mul_1_r in Hn. now rewrite Hn.
  - replace (e - k)%Z with (Zpos s) in Hn by lia.
    rewrite Hn, Z.mod_mul, Z.div_mul by (apply Z.pow_nonzero; lia).
    reflexivity.
Qed.

Lemma ofRational_dyadic m e :
  bounded prec emax m e = true ->
  ofRational (dyadic m e)
  = Z.ldexp (PrimFloat.of_uint63 (Uint63.of_Z (Zpos m))) e
  /\ ofRational (- dyadic m e)
     = PrimFloat.opp (Z.ldexp (PrimFloat.of_uint63 (Uint63.of_Z (Zpos m))) e).
Proof.
  intros B.
  assert (G : exists n j,
             dyadic m e = Zpos n # j
             /\ Zpos j = (2 ^ Z.log2 (Zpos j))%Z
             /\ exactDouble n (- Z.log2 (Zpos j))
                = Some (Z.ldexp (PrimFloat.of_uint63 (Uint63.of_Z (Zpos m))) e)).
  { destruct e as [|p|p]; cbn [dyadic].
    - exists m, 1%positive. split; [reflexivity|]. split; [reflexivity|].
      apply exactDouble_down with (m := m); [assumption|cbn; lia|cbn; lia].
    - exists (m * 2 ^ p)%positive, 1%positive.
      split; [reflexivity|]. split; [reflexivity|].
      apply exactDouble_down with (m := m); [assumption|cbn; lia|].
      cbn [Z.log2 Z.opp]. rewrite Pos2Z.inj_mul, Pos2Z.inj_pow, Z.sub_0_r.
      reflexivity.
    - destruct (lowest_spec m (Pos.to_nat p)) as (n & j & E & Hj & Hm).
      exists n, (Pos.shiftl_nat 1 j). split; [exact E|].
      rewrite shiftl_nat_pow, Z.log2_pow2 by lia. split; [reflexivity|].
      apply exactDouble_up with (m := m); [assumption|lia|].
      rewrite Hm. f_equal. f_equal. lia. }
  destruct G as (n & j & E & Hj & X).
  rewrite E. unfold ofRational. cbn [Qnum Qden Qopp Z.opp].
  apply Z.eqb_eq in Hj. rewrite Hj. unfold ofScaled. rewrite X. now split.
Qed.

(** The values are the doubles: every double is the double of its
    value. *)
Theorem toFloat_fromFloat (f : float) : toFloat (fromFloat f) = f.
Proof.
  rewrite <- (FloatAxioms.SF2Prim_Prim2SF f) at 2.
  pose proof (FloatAxioms.Prim2SF_valid f) as V.
  unfold fromFloat.
  destruct (Prim2SF f) as [[|]|[|]| |[|] m e]; try reflexivity;
    cbn [valid_binary] in V; cbn [toFloat SF2Prim];
    destruct (ofRational_dyadic m e V) as [P N]; assumption.
Qed.

(** So the operations on values are the operations on doubles. *)
Lemma mul_fromFloat f g :
  mul (fromFloat f) (fromFloat g) = fromFloat (PrimFloat.mul f g).
Proof. unfold mul. now rewrite !toFloat_fromFloat. Qed.

Lemma div_fromFloat f g :
  div (fromFloat f) (fromFloat g) = fromFloat (PrimFloat.div f g).
Proof. unfold div. now rewrite !toFloat_fromFloat. Qed.

Lemma add_fromFloat f g :
  add (fromFloat f) (fromFloat g) = fromFloat (PrimFloat.add f g).
Proof. unfold add. now rewrite !toFloat_fromFloat. Qed.

Lemma sub_fromFloat f g :
  sub (fromFloat f) (fromFloat g) = fromFloat (PrimFloat.sub f g).
Proof. unfold sub. now rewrite !toFloat_fromFloat. Qed.

Lemma Math_sqrt_fromFloat f :
  Math_sqrt (fromFloat f) = fromFloat (PrimFloat.sqrt f).
Proof. unfold Math_sqrt. now rewrite toFloat_fromFloat. Qed.

Lemma dyadic_pos m e : (0 < dyadic m e)%Q.
Proof.
  destruct e as [|p|p]; unfold dyadic; try reflexivity.
  destruct (lowest_spec m (Pos.to_nat p)) as (n & j & E & _).
  rewrite E. reflexivity.
Qed.

(** [Math.sqrt] gives NaN or a number that is not negative. *)
Lemma Math_sqrt_sign a :
  match Math_sqrt a with
  | Fin q => (0 <= q)%Q
  | NInf => False
  | _ => True
  end.
Proof.
  unfold Math_sqrt, fromFloat. rewrite FloatAxioms.sqrt_spec.
  unfold FloatAxioms.SF64sqrt, SFsqrt.
  destruct (Prim2SF (toFloat a)) as [[|]|[|]| |[|] m e]; try exact I;
    try apply Qle_refl.
  destruct (SFsqrt_core_binary prec emax (Z.pos m) e) as [[mz ez] lz].
  pose proof (binary_round_aux_sign prec emax false mz ez lz) as S.
  destruct (binary_round_aux prec emax false mz ez lz) as [s|s| |s m' e'];
    try subst s; try exact I; try apply Qle_refl.
  apply Qlt_le_weak, dyadic_pos.
Qed.

Lemma Math_sqrt_not_below a m : (m <= 0)%Q -> lt (Math_sqrt a) (Fin m) = false.
Proof.
  intros Hm. pose proof (Math_sqrt_sign a) as S.
  destruct (Math_sqrt a); try reflexivity; try contradiction;
    cbn; q_prop; lra.
Qed.

(** The conversions on examples: 0.1 rounded, the greatest and the
    least positive double, and integers that are no doubles, which go to
    the nearest double. *)
Lemma toFloat_examples :
  fromFloat (toFloat (Fin (3602879701896397 # 36028797018963968)))
  = Fin (3602879701896397 # 36028797018963968)
  /\ fromFloat (toFloat (Fin (inject_Z ((2 ^ 53 - 1) * 2 ^ 971))))
     = Fin (inject_Z ((2 ^ 53 - 1) * 2 ^ 971))
  /\ fromFloat (toFloat (Fin (1 # 2 ^ 1074))) = Fin (1 # 2 ^ 1074)
  /\ fromFloat (toFloat (Fin (inject_Z (2 ^ 70 + 2 ^ 18))))
     = Fin (inject_Z (2 ^ 70 + 2 ^ 18))
  /\ fromFloat (toFloat (Fin (inject_Z (2 ^ 70 + 1)))) = Fin (inject_Z (2 ^ 70))
  /\ fromFloat (toFloat (Fin (inject_Z (2 ^ 70 + 2 ^ 17 + 1))))
     = Fin (inject_Z (2 ^ 70 + 2 ^ 18))
  /\ fromFloat (toFloat (Fin (- (5 # 2)))) = Fin (- (5 # 2))
  /\ fromFloat (toFloat NZero) = NZero
  /\ fromFloat (toFloat NaN) = NaN
  /\ fromFloat (toFloat (Fin (inject_Z (2 ^ 1024)))) = PInf.
Proof. repeat split; vm_compute; reflexivity. Qed.

(** *** NaN *)

Lemma Prim2SF_nan : Prim2SF PrimFloat.nan = S754_nan.
Proof. reflexivity. Qed.

Lemma sub_NaN_l b : sub NaN b = NaN.
Proof.
  unfold sub, fromFloat. rewrite FloatAxioms.sub_spec. cbn [toFloat].
  rewrite Prim2SF_nan. unfold FloatAxioms.SF64sub, SFsub.
  now destruct (Prim2SF (toFloat b)).
Qed.

Lemma mul_NaN_l b : mul NaN b = NaN.
Proof.
  unfold mul, fromFloat. rewrite FloatAxioms.mul_spec. cbn [toFloat].
  rewrite Prim2SF_nan. unfold FloatAxioms.SF64mul, SFmul.
  now destruct (Prim2SF (toFloat b)).
Qed.

Lemma add_NaN_l b : add NaN b = NaN.
Proof.
  unfold add, fromFloat. rewrite FloatAxioms.add_spec. cbn [toFloat].
  rewrite Prim2SF_nan. unfold FloatAxioms.SF64add, SFadd.
  now destruct (Prim2SF (toFloat b)).
Qed.

Lemma add_NaN_r a : add a NaN = NaN.
Proof.
  unfold add, fromFloat. rewrite FloatAxioms.add_spec. cbn [toFloat].
  rewrite Prim2SF_nan. unfold FloatAxioms.SF64add, SFadd.
  now destruct (Prim2SF (toFloat a)) as [[|]|[|]| |].
Qed.

Lemma Math_sqrt_NaN : Math_sqrt NaN = NaN.
Proof. reflexivity. Qed.

(** *** Signs *)

Lemma binary_round_sign prec emax sx mx ex :
  match binary_round prec emax sx mx ex with
  | S754_zero s | S754_infinity s | S754_finite s _ _ => s = sx
  | S754_nan => True
  end.
Proof.
  unfold binary_round. destruct (shl_align mx ex _) as [mz ez].
  apply binary_round_aux_sign.
Qed.

Lemma negative_of_uint63 n : negative (PrimFloat.of_uint63 n) = false.
Proof.
  unfold negative. rewrite FloatAxioms.of_uint63_spec.
  pose proof (Uint63.to_Z_bounded n) as B.
  unfold binary_normalize. destruct (Uint63.to_Z n) as [|m|m]; [reflexivity| |lia].
  pose proof (binary_round_sign prec emax false m 0) as S.
  now destruct (binary_round prec emax false m 0).
Qed.

Lemma negative_ldexp f e : negative f = false -> negative (Z.ldexp f e) = false.
Proof.
  unfold negative, Z.ldexp. rewrite FloatAxioms.ldshiftexp_spec.
  unfold SFldexp. destruct (Prim2SF f) as [s|s| |s m e']; auto.
  intros ->.
  match goal with |- context [binary_round ?p ?em false m ?x] =>
    pose proof (binary_round_sign p em false m x) as S;
    now destruct (binary_round p em false m x)
  end.
Qed.

Lemma negative_div x y :
  negative x = false -> negative y = false ->
  negative (PrimFloat.div x y) = false.
Proof.
  unfold negative. rewrite FloatAxioms.div_spec.
  unfold FloatAxioms.SF64div, SFdiv.
  destruct (Prim2SF x) as [sx|sx| |sx mx ex], (Prim2SF y) as [sy|sy| |sy my ey];
    cbn; intros; subst; try reflexivity.
  destruct (SFdiv_core_binary prec emax (Z.pos mx) ex (Z.pos my) ey)
    as [[mz ez] lz].
  cbn [xorb].
  pose proof (binary_round_aux_sign prec emax false mz ez lz) as S.
  destruct (binary_round_aux prec emax false mz ez lz); auto.
Qed.

Lemma negative_mul x y :
  negative x = false -> negative y = false ->
  negative (PrimFloat.mul x y) = false.
Proof.
  unfold negative. rewrite FloatAxioms.mul_spec.
  unfold FloatAxioms.SF64mul, SFmul.
  destruct (Prim2SF x) as [sx|sx| |sx mx ex], (Prim2SF y) as [sy|sy| |sy my ey];
    cbn; intros; subst; try reflexivity.
  cbn [xorb].
  match goal with |- context [binary_round_aux ?p ?em false ?m ?e ?l] =>
    pose proof (binary_round_aux_sign p em false m e l) as S;
    destruct (binary_round_aux p em false m e l); auto
  end.
Qed.

Lemma negative_ofPositive p : negative (ofPositive p) = false.
Proof.
  unfold ofPositive. destruct (_ <=? _)%Z.
  - apply negative_of_uint63.
  - apply negative_ldexp, negative_of_uint63.
Qed.

Lemma negative_exactDouble n k f :
  exactDouble n k = Some f -> negative f = false.
Proof.
  unfold exactDouble. destruct (_ <=? _)%Z; [|discriminate].
  destruct (k - _)%Z as [|s|s].
  - intros [= <-]. apply negative_ldexp, negative_of_uint63.
  - intros [= <-]. apply negative_ldexp, negative_of_uint63.
  - destruct (_ =? _)%Z; [|discriminate].
    intros [= <-]. apply negative_ldexp, negative_of_uint63.
Qed.

Lemma negative_ofScaled n k : negative (ofScaled n k) = false.
Proof.
  unfold ofScaled. destruct (exactDouble n k) as [f|] eqn:E.
  - eapply negative_exactDouble; eauto.
  - apply negative_ldexp, negative_ofPositive.
Qed.

Lemma negative_toFloat a : notNegative a -> negative (toFloat a) = false.
Proof.
  destruct a as [q| | | |]; cbn [notNegative toFloat]; intros H;
    try contradiction; try reflexivity.
  destruct q as [n d]. unfold Qle in H. cbn in H.
  unfold ofRational. cbn [Qnum Qden].
  destruct (_ =? _)%Z; destruct n as [|n|n]; try lia; try reflexivity.
  - apply negative_ofScaled.
  - apply negative_div; apply negative_ofPositive.
Qed.

Lemma notNegative_fromFloat f : negative f = false -> notNegative (fromFloat f).
Proof.
  unfold negative, fromFloat.
  destruct (Prim2SF f) as [s|s| |s m e]; intros H; try subst s; cbn;
    try exact I; try apply Qle_refl.
  apply Qlt_le_weak, dyadic_pos.
Qed.

(** A quotient and a product of numbers that are not negative are not
    negative. *)
Lemma notNegative_div a b :
  notNegative a -> notNegative b -> notNegative (div a b).
Proof.
  intros Ha Hb. apply notNegative_fromFloat, negative_div;
    now apply negative_toFloat.
Qed.

Lemma notNegative_mul a b :
  notNegative a -> notNegative b -> notNegative (mul a b).
Proof.
  intros Ha Hb. apply notNegative_fromFloat, negative_mul;
    now apply negative_toFloat.
Qed.

Lemma isZero_inject_Z z : isZero (inject_Z z) = (z =? 0)%Z.
Proof. unfold isZero, Qeq_bool. simpl. now rewrite Z.mul_1_r. Qed.

(** Rounded, a number that is not negative is 0, NaN, a whole number of
    at least 1, or Infinity. *)
Lemma Math_round_notNegative a :
  notNegative a ->
  JsNum.truthy (Math_round a) = false
  \/ Math_round a = PInf
  \/ exists n, (1 <= n)%Z /\ Math_round a = ofZ n.
Proof.
  destruct a as [q| | | |]; cbn [notNegative Math_round]; intros H;
    try contradiction; [|right; now left|now left].
  assert (L : Qltb q 0 = false) by now apply Qltb_false_iff.
  rewrite L, andb_false_r.
  set (r := Qfloor (q + (1 # 2))).
  assert (Hr : (0 <= r)%Z).
  { change 0%Z with (Qfloor 0). apply Qfloor_resp_le. lra. }
  destruct (r =? 0)%Z eqn:E.
  - left. cbn [JsNum.truthy]. now rewrite isZero_inject_Z, E.
  - right. right. exists r. apply Z.eqb_neq in E. split; [lia|reflexivity].
Qed.

End JsNumFacts.

(** ** Queries *)

Module QueryProperties.

Import JsObj Board NotePositionManager Samples JsStringFacts JsNumFacts.

(** C10.  Whatever the query, the empty one too, [searchNotesByText]
    returns exactly the records of [positions] whose text is a string
    that is not empty and whose lower-cased text contains the
    lower-cased query; though every string contains the empty string, a
    record with an empty text is never returned. *)
Theorem searchNotesByText_skips_empty_text :
  forall (toLowerCase : jsstring -> jsstring) (searchText : jsstring)
         (s : Manager),
    (forall pos,
        In pos (searchNotesByText toLowerCase searchText s) <->
        In pos (values (positions s))
        /\ exists text,
             n_text pos = Some text /\ text <> []
             /\ occurs_in (toLowerCase searchText) (toLowerCase text))
    /\ (forall pos,
           In pos (searchNotesByText toLowerCase searchText s) ->
           n_text pos <> Some [])
    /\ (forall text, includes text [] = true).
Proof.
  intros toLowerCase searchText s.
  assert (M : forall pos,
    textMatches toLowerCase searchText pos = true <->
    exists text, n_text pos = Some text /\ text <> []
                 /\ occurs_in (toLowerCase searchText) (toLowerCase text)).
  { intros pos. unfold textMatches.
    destruct (n_text pos) as [[|c t]|].
    - split; [discriminate | intros (text & [= <-] & H & _); now elim H].
    - rewrite includes_spec. split.
      + intros H. exists (c :: t). repeat split; auto. discriminate.
      + now intros (text & [= <-] & _ & H).
    - split; [discriminate | intros (text & H & _); discriminate]. }
  unfold searchNotesByText. split; [|split].
  - intros pos. rewrite filter_In, M. reflexivity.
  - intros pos H E. apply filter_In in H. destruct H as [_ H].
    unfold textMatches in H. rewrite E in H. discriminate.
  - apply includes_empty.
Qed.

(** *** [findNearestNote] *)

Lemma nearestStep_keeps x y bound seen acc pos :
  nearest_so_far x y bound seen acc ->
  nearest_so_far x y bound (seen ++ [pos]) (nearestStep x y acc pos).
Proof.
  destruct acc as [nearest minDistance]. unfold nearestStep. cbv zeta.
  destruct (lt (distanceTo x y pos) minDistance) eqn:L.
  - (* the new record is nearer *)
    unfold nearest_so_far; cbn [fst snd].
    destruct nearest as [p0|].
    + intros (before & after & Hseen & Hmin & Hb0 & Hb & Ha).
      subst minDistance.
      exists seen, []. split; [reflexivity|]. split; [reflexivity|].
      split; [now apply lt_trans with (distanceTo x y p0)|].
      split; [|intros pos' []].
      intros pos' Hin.
      destruct (le (distanceTo x y pos') (distanceTo x y pos)) eqn:E;
        [exfalso|reflexivity].
      pose proof (le_lt_trans _ _ _ E L) as Hlt.
      subst seen. apply in_app_or in Hin. destruct Hin as [Hin|[<-|Hin]].
      * apply lt_le in Hlt. rewrite (Hb _ Hin) in Hlt. discriminate.
      * apply lt_le_false in L. congruence.
      * rewrite (Ha _ Hin) in Hlt. discriminate.
    + intros [Hmin Hnone]. subst minDistance.
      exists seen, []. split; [reflexivity|]. split; [reflexivity|].
      split; [assumption|].
      split; [|intros pos' []].
      intros pos' Hin.
      destruct (le (distanceTo x y pos') (distanceTo x y pos)) eqn:E;
        [exfalso|reflexivity].
      pose proof (le_lt_trans _ _ _ E L) as Hlt.
      rewrite (Hnone _ Hin) in Hlt. discriminate.
  - (* the new record is not nearer *)
    unfold nearest_so_far; cbn [fst snd].
    destruct nearest as [p0|].
    + intros (before & after & Hseen & Hmin & Hb0 & Hb & Ha).
      subst minDistance.
      exists before, (after ++ [pos]).
      split; [subst seen; now rewrite <- app_assoc|].
      split; [reflexivity|]. split; [assumption|]. split; [assumption|].
      intros pos' Hin.
      apply in_app_or in Hin. destruct Hin as [Hin|[<-|[]]]; auto.
    + intros [Hmin Hnone]. subst minDistance. split; [reflexivity|].
      intros pos' Hin.
      apply in_app_or in Hin. destruct Hin as [Hin|[<-|[]]]; auto.
Qed.

Lemma nearestLoop_keeps x y bound todo : forall seen acc,
  nearest_so_far x y bound seen acc ->
  nearest_so_far x y bound (seen ++ todo)
                 (fold_left (nearestStep x y) todo acc).
Proof.
  induction todo as [|pos todo IH]; intros seen acc H; simpl.
  - now rewrite app_nil_r.
  - replace (seen ++ pos :: todo) with ((seen ++ [pos]) ++ todo)
      by now rewrite <- app_assoc.
    apply IH. now apply nearestStep_keeps.
Qed.

(** What [findNearestNote] returns, for a given bound. *)
Lemma findNearestNote_bound x y m s :
  match findNearestNote x y (Some m) s with
  | Some pos =>
      exists before after,
        values (positions s) = before ++ pos :: after
        /\ lt (distanceTo x y pos) (Fin m) = true
        /\ (forall pos', In pos' before ->
              le (distanceTo x y pos') (distanceTo x y pos) = false)
        /\ (forall pos', In pos' after ->
              lt (distanceTo x y pos') (distanceTo x y pos) = false)
  | None =>
      forall pos, In pos (values (positions s)) ->
                  lt (distanceTo x y pos) (Fin m) = false
  end.
Proof.
  unfold findNearestNote.
  pose proof (nearestLoop_keeps x y (Fin m) (values (positions s)) []
                (None, Fin m)) as H.
  cbn [app] in H.
  destruct (fold_left (nearestStep x y) (values (positions s)) (None, Fin m))
    as [nearest minDistance].
  unfold nearest_so_far in H. cbn [fst snd] in *.
  assert (H0 : Fin m = Fin m
               /\ forall p : NoteRecord, False ->
                    lt (distanceTo x y p) (Fin m) = false)
    by (split; [reflexivity | intros p []]).
  specialize (H H0).
  destruct nearest as [pos|].
  - destruct H as (before & after & H1 & _ & H2 & H3 & H4).
    exists before, after. auto.
  - apply H.
Qed.

(** A record without an x or a y has no distance. *)
Lemma distanceTo_missing_coordinate x y pos :
  n_x pos = None \/ n_y pos = None -> distanceTo x y pos = NaN.
Proof.
  unfold distanceTo. cbv zeta. intros [E|E]; rewrite E; cbn [coordinate];
    rewrite sub_NaN_l, mul_NaN_l;
    [rewrite add_NaN_l | rewrite add_NaN_r]; apply Math_sqrt_NaN.
Qed.

(** C6, as the specification has it, fails on the tie: of two records
    at distance 1 from [(1, 0)], [findNearestNote] returns the one that
    comes first in [positions], here the one with the higher id. *)
Lemma findNearestNote_tie_keeps_first :
  findNearestNote 1 0 None boardTie = Some noteB
  /\ distanceTo 1 0 noteA = Fin 1
  /\ distanceTo 1 0 noteB = Fin 1
  /\ In noteA (values (positions boardTie))
  /\ n_id noteA = Some "a"%string
  /\ n_id noteB = Some "b"%string
  /\ String.ltb "a" "b" = true.
Proof.
  repeat split; try (vm_compute; reflexivity).
  simpl. tauto.
Qed.

(** The distances are the doubles the loop computes, not the Euclidean
    ones.  Of two records at [(1e8, 1)] and [(1e8, 0)] the first is
    returned for the origin, though the second is nearer: both sums of
    squares are [1e16] in doubles.  And with the bound [Math.SQRT2] a
    record at [(1, 1)] is not found from the origin, though the square
    root of 2 is below [Math.SQRT2]: the computed distance is the
    bound. *)
Lemma findNearestNote_in_doubles :
  findNearestNote 0 0 (Some 1000000000%Q) boardFar = Some noteF1
  /\ distanceTo 0 0 noteF1 = Fin 100000000
  /\ distanceTo 0 0 noteF2 = Fin 100000000
  /\ (100000000 * 100000000 + 0 * 0 < 100000000 * 100000000 + 1 * 1)%Q
  /\ findNearestNote 0 0 (Some SQRT2) boardDiagonal = None
  /\ distanceTo 0 0 (stickyAt "d" 1 1) = Fin SQRT2
  /\ (1 * 1 + 1 * 1 < SQRT2 * SQRT2)%Q.
Proof.
  repeat split; try (vm_compute; reflexivity).
Qed.

(** C6, amended.  [findNearestNote] compares the distances it computes,
    [Math.sqrt(dx*dx + dy*dy)] in double arithmetic.  It returns a record
    of [positions] whose computed distance to [(x, y)] is strictly below
    [maxDistance] (100 when it is left out) and least among all records,
    and [null] when no record is strictly within the bound.  Of several
    records at the least distance it returns the first in the
    enumeration order of [positions]: every record before it is farther
    or has no distance, no record after it is nearer.  A record without
    an x or a y has the distance NaN and is never returned. *)
Theorem findNearestNote_first_nearest :
  forall (x y : Q) (maxDistance : option Q) (s : Manager),
    let bound := match maxDistance with Some m => m | None => 100%Q end in
    match findNearestNote x y maxDistance s with
    | Some pos =>
        exists before after,
          values (positions s) = before ++ pos :: after
          /\ lt (distanceTo x y pos) (Fin bound) = true
          /\ (forall pos', In pos' before ->
                lt (distanceTo x y pos) (distanceTo x y pos') = true
                \/ distanceTo x y pos' = NaN)
          /\ (forall pos', In pos' after ->
                lt (distanceTo x y pos') (distanceTo x y pos) = false)
    | None =>
        forall pos, In pos (values (positions s)) ->
                    lt (distanceTo x y pos) (Fin bound) = false
    end
    /\ (forall pos, n_x pos = None \/ n_y pos = None ->
                    distanceTo x y pos = NaN
                    /\ findNearestNote x y maxDistance s <> Some pos).
Proof.
  intros x y maxDistance s bound.
  assert (E : findNearestNote x y maxDistance s
              = findNearestNote x y (Some bound) s)
    by (destruct maxDistance; reflexivity).
  rewrite E.
  pose proof (findNearestNote_bound x y bound s) as H.
  split.
  - destruct (findNearestNote x y (Some bound) s) as [pos|]; [|exact H].
    destruct H as (before & after & H1 & H2 & H3 & H4).
    exists before, after. repeat split; auto.
    intros pos' Hin. specialize (H3 _ Hin).
    now apply not_le_lt_or_nan with (Fin bound).
  - intros pos Hmiss.
    pose proof (distanceTo_missing_coordinate x y pos Hmiss) as N.
    split; [exact N|]. intros R. rewrite R in H.
    destruct H as (before & after & _ & H2 & _).
    rewrite N in H2. discriminate.
Qed.

End QueryProperties.

(** ** The character budget *)

Module TruncationProperties.

Import Truncation Samples.

Lemma Qle_bool_inject_Z a b :
  Qle_bool (inject_Z a) (inject_Z b) = (a <=? b)%Z.
Proof. unfold Qle_bool. simpl. now rewrite !Z.mul_1_r. Qed.

(** When the base limits have no entry under the font name, the
    built-in limits are the ones scaled, whatever is configured. *)
Lemma getDynamicCharacterLimits_without_font_entry
    baseCharacterLimits font currentFontSize :
  truthy (prop (getBaseCharacterLimits baseCharacterLimits) font) = false ->
  getDynamicCharacterLimits baseCharacterLimits font currentFontSize
  = let scaleFactor := div BASE_FONT_SIZE currentFontSize in
    {| sticky := Math_round (mul (ofZ 60) scaleFactor);
       photo := Math_round (mul (ofZ 15) scaleFactor);
       index := Math_round (mul (ofZ 200) scaleFactor) |}.
Proof.
  intros H. unfold getDynamicCharacterLimits.
  set (b := getBaseCharacterLimits baseCharacterLimits) in *.
  unfold or_else. rewrite H. reflexivity.
Qed.

(** C4, as the specification has it, fails.  With base limits
    [{sticky: 30, photo: 15, index: 200}], font Arial and the font size
    15, the limit of a sticky note is 60 and not
    [round(30 * (15 / 15)) = 30]; with base limits
    [{Arial: {sticky: 30, photo: 15, index: 200}}], where the base limits
    omit the note type, it is 30 and not the built-in 60; and a note type
    that is not known gets 100. *)
Lemma charLimit_not_indexed_by_noteType :
  charLimit flatLimits30 "Arial" "sticky" (ofZ 15) = ofZ 60
  /\ spec_limit flatLimits30 "sticky" BASE_FONT_SIZE (ofZ 15) = ofZ 30
  /\ charLimit flatLimits30 "Arial" "sticky" (ofZ 15)
     <> spec_limit flatLimits30 "sticky" BASE_FONT_SIZE (ofZ 15)
  /\ prop arialLimits30 "sticky" = VUndef
  /\ charLimit arialLimits30 "Arial" "sticky" (ofZ 15) = ofZ 30
  /\ charLimit flatLimits30 "Arial" "polaroid" (ofZ 15) = ofZ 100.
Proof. repeat split; vm_compute; try reflexivity. discriminate. Qed.

(** The arithmetic is that of doubles, and the lookup of the note type
    sees inherited members.  At the font size [(180 / 200) * 16] the
    limit of a sticky note is 63, where exact arithmetic would give 62;
    at the font size [1 / 1e308] the scale factor overflows and the limit
    is Infinity; and for the note type ["constructor"] the limit is the
    function [Object], so that every text becomes the ellipsis. *)
Lemma charLimit_in_doubles :
  let fontSize := mul (div (ofZ 180) (ofZ 200)) (ofZ 16) in
  fontSize = Fin (8106479329266893 # 562949953421312)
  /\ charLimit VUndef "Arial" "sticky" fontSize = ofZ 63
  /\ Qfloor (60 * (15 / (8106479329266893 # 562949953421312)) + (1 # 2))
     = 62%Z
  /\ charLimit VUndef "Arial" "sticky" (div (ofZ 1) (ofZ (10 ^ 308))) = PInf
  /\ limitOf (getDynamicCharacterLimits VUndef "Arial" (ofZ 15)) "constructor"
     = VNative
  /\ charLimit VUndef "Arial" "constructor" (ofZ 15) = NaN
  /\ _truncateText VUndef text40 "Arial" "constructor" (ofZ 15) = ellipsis.
Proof.
  repeat split; vm_compute; reflexivity.
Qed.

(** C4, amended.  The base limits are read under the font name: the
    entry [baseLimits[font]], or the built-in
    [{sticky: 60, photo: 15, index: 200}] when there is none, gives the
    limits per note type.  The limit of a note type among sticky, photo
    and index is its entry times [15 / currentFontSize] in double
    arithmetic, rounded, and 100 when that is 0 or NaN.  For a note type
    that names a member every object inherits (constructor, toString,
    ...) the limit is that member and no number, and the text becomes the
    ellipsis alone.  For any other note type the limit is 100. *)
Theorem charLimit_by_font :
  forall baseCharacterLimits font noteType currentFontSize,
    charLimit baseCharacterLimits font noteType currentFontSize
    = amended_limit baseCharacterLimits font noteType currentFontSize
    /\ (JsObj.inheritedName noteType = true ->
        forall text,
          _truncateText baseCharacterLimits text font noteType currentFontSize
          = ellipsis).
Proof.
  intros baseCharacterLimits font noteType currentFontSize.
  assert (E : charLimit baseCharacterLimits font noteType currentFontSize
              = amended_limit baseCharacterLimits font noteType
                              currentFontSize).
  { unfold charLimit, amended_limit, limitOf, spec_limit.
    cbn [existsb].
    destruct (String.eqb noteType "sticky") eqn:E1.
    { apply String.eqb_eq in E1. subst noteType. cbn [orb].
      unfold or_else at 1. cbn [truthy sticky getDynamicCharacterLimits].
      now destruct (JsNum.truthy _). }
    destruct (String.eqb noteType "photo") eqn:E2.
    { apply String.eqb_eq in E2. subst noteType. cbn [orb].
      unfold or_else at 1. cbn [truthy photo getDynamicCharacterLimits].
      now destruct (JsNum.truthy _). }
    destruct (String.eqb noteType "index") eqn:E3.
    { apply String.eqb_eq in E3. subst noteType. cbn [orb].
      unfold or_else at 1. cbn [truthy index getDynamicCharacterLimits].
      now destruct (JsNum.truthy _). }
    cbn [orb]. now destruct (JsObj.inheritedName noteType). }
  split; [exact E|].
  intros Hin text. unfold _truncateText. rewrite E.
  unfold amended_limit.
  destruct (existsb (String.eqb noteType) ["sticky"; "photo"; "index"]%string)
    eqn:Ex.
  - exfalso. cbn [existsb] in Ex.
    repeat (apply orb_true_iff in Ex; destruct Ex as [Ex|Ex]);
      try discriminate;
      apply String.eqb_eq in Ex; subst noteType; discriminate.
  - rewrite Hin. reflexivity.
Qed.

Lemma le_ofZ a b : JsNum.le (ofZ a) (ofZ b) = (a <=? b)%Z.
Proof. unfold JsNum.le, ofZ. apply Qle_bool_inject_Z. Qed.

(** [slice(0, n)] with an integer [n] that is not negative takes the
    first [n] characters. *)
Lemma slice0_ofZ text n :
  (0 <= n)%Z -> slice0 text (ofZ n) = firstn (Z.to_nat n) text.
Proof.
  intros Hn. unfold slice0. simpl. rewrite Z.quot_1_r.
  destruct (n <? 0)%Z eqn:L; [apply Z.ltb_lt in L; lia|].
  destruct (Z.le_ge_cases n (JsString.length text)) as [H|H].
  - now rewrite Z.min_l.
  - rewrite Z.min_r by assumption. unfold JsString.length in *.
    rewrite Nat2Z.id, !firstn_all2; auto. lia.
Qed.

(** C5, as the specification has it, fails: [trim] strips the
    whitespace at both ends of the slice.  Of 80 characters that begin
    with a space, with the limit 60, the result does not begin with the
    space. *)
Lemma truncateText_trims_leading_whitespace :
  JsString.length spaced80 = 80%Z
  /\ charLimit VUndef "Arial" "sticky" (ofZ 15) = ofZ 60
  /\ _truncateText VUndef spaced80 "Arial" "sticky" (ofZ 15)
     <> spec_truncated spaced80 60.
Proof.
  repeat split. vm_compute. discriminate.
Qed.

(** C5, amended.  When the limit is a number [n] that is not negative,
    [_truncateText] returns the text unchanged if it has at most [n]
    characters, and otherwise its first [n] characters with the
    whitespace trimmed at both ends, followed by the ellipsis. *)
Theorem truncateText_law :
  forall baseCharacterLimits text font noteType currentFontSize n,
    charLimit baseCharacterLimits font noteType currentFontSize = ofZ n ->
    (0 <= n)%Z ->
    _truncateText baseCharacterLimits text font noteType currentFontSize
    = if (JsString.length text <=? n)%Z then text
      else trim (firstn (Z.to_nat n) text) ++ ellipsis.
Proof.
  intros baseCharacterLimits text font noteType currentFontSize n H Hn.
  unfold _truncateText. rewrite H, le_ofZ.
  destruct (JsString.length text <=? n)%Z; [reflexivity|].
  now rewrite slice0_ofZ.
Qed.

Lemma truncateText_law_witness :
  _truncateText VUndef text80 "Arial" "sticky" (ofZ 15)
  = trim (firstn 60 text80) ++ ellipsis.
Proof.
  exact (truncateText_law VUndef text80 "Arial" "sticky" (ofZ 15) (n := 60)
           eq_refl ltac:(lia)).
Defined.

(** The example of the specification, for every text: at the font size
    15, without an entry for the font in the base limits, a sticky note
    of 80 characters keeps its first 60, trimmed, and the ellipsis; one
    of 40 characters is unchanged. *)
Lemma truncateText_sticky_at_base_size baseCharacterLimits text font :
  truthy (prop (getBaseCharacterLimits baseCharacterLimits) font) = false ->
  (List.length text = 80%nat ->
   _truncateText baseCharacterLimits text font "sticky" (ofZ 15)
   = trim (firstn 60 text) ++ ellipsis)
  /\ (List.length text = 40%nat ->
      _truncateText baseCharacterLimits text font "sticky" (ofZ 15) = text).
Proof.
  intros H.
  assert (L : charLimit baseCharacterLimits font "sticky" (ofZ 15) = ofZ 60).
  { unfold charLimit.
    now rewrite getDynamicCharacterLimits_without_font_entry. }
  unfold _truncateText. rewrite L, le_ofZ, slice0_ofZ by lia.
  unfold JsString.length.
  split; intros Hlen; rewrite Hlen; reflexivity.
Qed.

End TruncationProperties.

(** ** The examples of the specification *)

Module Examples.

Import JsObj Board NotePositionManager Truncation Samples.

(** Records at [(0, 0)] and [(10, 0)]: the nearest to [(1, 0)] within 100
    is the first, and nothing is within 5 of [(100, 100)]. *)
Example nearest_of_two :
  let board :=
    with_positions [("p"%string, stickyAt "p" 0 0);
                    ("q"%string, stickyAt "q" 10 0)] boardA in
  findNearestNote 1 0 (Some 100%Q) board = Some (stickyAt "p" 0 0)
  /\ findNearestNote 100 100 (Some 5%Q) board = None.
Proof. split; reflexivity. Qed.

(** A sticky note of 40 characters is shown whole, one of 80 characters
    is cut at 60. *)
Example truncate_sticky :
  _truncateText VUndef text40 "Arial" "sticky" (ofZ 15) = text40
  /\ _truncateText VUndef text80 "Arial" "sticky" (ofZ 15)
     = letters 60 ++ ellipsis.
Proof. split; reflexivity. Qed.

(** The search ignores the case; the empty query finds the note with a
    text and not the one whose text is empty. *)
Example search_by_text :
  let blank :=
    mkNote (Some "e"%string) (Some 0) (Some 0) None None None None None None
           (Some "sticky"%string) (Some []) None None None None in
  let board := with_positions [("n1"%string, noteN1); ("e"%string, blank)] boardA in
  searchNotesByText asciiLower (str "CLUE") board = [noteN1]
  /\ searchNotesByText asciiLower [] board = [noteN1]
  /\ searchNotesByText asciiLower (str "photo") board = [].
Proof. repeat split; reflexivity. Qed.

(** A note created on one client is in the snapshot, and a client that
    loads the snapshot has the same record. *)
Example create_then_load :
  let peerA := onNoteCreate docN2 (mkOptions false) "userA" boardA in
  let peerB := loadPositions (with_scene (scene peerA) boardStale) in
  get (positions peerB) "n2" = get (positions peerA) "n2"
  /\ get (positions peerB) "n2" = Some (positionOf docN2 1000)
  /\ sent peerB = [].
Proof. repeat split; reflexivity. Qed.

End Examples.

(** * Further properties *)

(** ** Plain objects, continued *)

Module JsObjMoreFacts.

Import JsObj JsObjFacts.

Section Facts.
Variable V : Type.
Implicit Types (o : obj V) (k : string) (v : V).

(** The last of two writes of a property is the one that stays. *)
Lemma set_set_last o k v1 v2 : set (set o k v1) k v2 = set o k v2.
Proof.
  induction o as [|[k' v'] r IH]; simpl.
  - now rewrite String.eqb_refl.
  - destruct (String.eqb k' k) eqn:E; simpl; rewrite E; congruence.
Qed.

Lemma get_None_keys o k : get o k = None <-> ~ In k (keys o).
Proof.
  induction o as [|[k' v'] r IH]; simpl; [tauto|].
  destruct (String.eqb k' k) eqn:E.
  - apply String.eqb_eq in E. split; [discriminate | tauto].
  - apply String.eqb_neq in E. rewrite IH. tauto.
Qed.

Lemma keys_delete_incl o k k' : In k' (keys (delete o k)) -> In k' (keys o).
Proof.
  induction o as [|[k0 v0] r IH]; simpl; [tauto|].
  destruct (String.eqb k0 k); simpl; tauto.
Qed.

Lemma get_delete_same o k : wf o -> get (delete o k) k = None.
Proof.
  unfold wf. induction o as [|[k' v'] r IH]; simpl; intros H; [reflexivity|].
  inversion H as [|? ? Hn Hd]; subst.
  destruct (String.eqb k' k) eqn:E; simpl.
  - apply String.eqb_eq in E. subst. now apply get_None_keys.
  - rewrite E. auto.
Qed.

Lemma get_delete_other o k k' : k <> k' -> get (delete o k) k' = get o k'.
Proof.
  intros Hne. induction o as [|[k0 v0] r IH]; simpl; [reflexivity|].
  destruct (String.eqb k0 k) eqn:E; simpl.
  - apply String.eqb_eq in E. subst.
    destruct (String.eqb k k') eqn:E'; [|reflexivity].
    apply String.eqb_eq in E'. contradiction.
  - now rewrite IH.
Qed.

Lemma get_In_values o k v : get o k = Some v -> In v (values o).
Proof.
  induction o as [|[k' v'] r IH]; simpl; [discriminate|].
  destruct (String.eqb k' k); [intros [= ->]; now left | auto].
Qed.

End Facts.

End JsObjMoreFacts.

(** ** The cache of positions *)

Module CacheProperties.

Import JsObj JsObjFacts JsObjMoreFacts Board NotePositionManager ManagerQueries.
Import Samples MoreSamples ManagerFacts SyncProperties Specs.

Lemma eqb_sym_false a b : a <> b -> String.eqb b a = false.
Proof. intros H. apply String.eqb_neq. congruence. Qed.

(** X1.  After [updatePosition], [getPosition] of the id of the document
    gives the record just built from it, and [getPosition] of any other
    id gives what it gave before. *)
Theorem updatePosition_then_getPosition :
  forall document userId s id,
    getPosition id (updatePosition document userId s)
    = if String.eqb id (d_id document)
      then Some (positionOf document (now s))
      else getPosition id s.
Proof.
  intros document userId s id. unfold getPosition.
  rewrite updatePosition_positions.
  destruct (String.eqb id (d_id document)) eqn:E.
  - apply String.eqb_eq in E. subst. apply get_set_same.
  - apply String.eqb_neq in E. apply get_set_other. congruence.
Qed.

(** X2.  When a note that is tracked is deleted, [getPosition] of its id
    gives [null] afterwards and every other id keeps its record; the
    message [{id, position: null}] is sent exactly when the socket is set
    and the deleting user is the user of this client. *)
Theorem onNoteDelete_forgets_note :
  forall document options userId s noteData position,
    wf (positions s) ->
    d_flags document = Some noteData ->
    getPosition (d_id document) s = Some position ->
    let s' := onNoteDelete document options userId s in
    (forall id,
        getPosition id s'
        = if String.eqb id (d_id document) then None else getPosition id s)
    /\ sent s'
       = if socket s && String.eqb (gameUserId s) userId
         then sent s ++ [mkMessage (Some (d_id document)) None]
         else sent s.
Proof.
  intros document options userId s noteData position Hwf Hf Hp s'.
  subst s'. unfold onNoteDelete, getPosition in *.
  rewrite Hf, Hp. cbn [isSome andb].
  cbn [socket gameUserId emit with_emitted].
  rewrite savePositions_socket, savePositions_gameUserId.
  cbn [socket gameUserId with_positions].
  split.
  - intros id.
    assert (E : forall c x y, positions (if c : bool then executeForOthers x y else y)
                        = positions y) by (intros []; reflexivity).
    rewrite E. cbn [positions emit with_emitted].
    rewrite savePositions_positions. cbn [positions with_positions].
    destruct (String.eqb id (d_id document)) eqn:Eid.
    + apply String.eqb_eq in Eid. subst. now apply get_delete_same.
    + apply String.eqb_neq in Eid. apply get_delete_other. congruence.
  - destruct (socket s && String.eqb (gameUserId s) userId);
      cbn [sent executeForOthers with_sent emit with_emitted];
      now rewrite savePositions_sent.
Qed.

Lemma onNoteDelete_forgets_note_witness :
  let s' := onNoteDelete docN1 (mkOptions false) "userA" boardA in
  (forall id,
      getPosition id s'
      = if String.eqb id (d_id docN1) then None else getPosition id boardA)
  /\ sent s'
     = if socket boardA && String.eqb (gameUserId boardA) "userA"
       then sent boardA ++ [mkMessage (Some (d_id docN1)) None]
       else sent boardA.
Proof.
  apply (@onNoteDelete_forgets_note docN1 (mkOptions false) "userA" boardA
           (mkFlags (Some "sticky"%string) (Some (str "Clue #1"))
                    None None None)
           noteN1).
  - unfold wf. simpl. constructor; [simpl; tauto | constructor].
  - reflexivity.
  - reflexivity.
Defined.

(** X3.  A drawing without the flags of the module is not a note: its
    update, creation and deletion leave the manager as it is, whatever
    the change, the options and the user. *)
Theorem drawing_without_flags_is_ignored :
  forall document updateData options userId s,
    d_flags document = None ->
    onNoteUpdate document updateData options userId s = s
    /\ onNoteCreate document options userId s = s
    /\ onNoteDelete document options userId s = s.
Proof.
  intros document updateData options userId s H.
  unfold onNoteUpdate, onNoteCreate, onNoteDelete. rewrite H.
  destruct (noSocket options); repeat split.
Qed.

Lemma drawing_without_flags_is_ignored_witness :
  onNoteUpdate plainDrawing (savedChanges noteN1 plainDrawing)
               (mkOptions false) "userA" boardA = boardA
  /\ onNoteCreate plainDrawing (mkOptions false) "userA" boardA = boardA
  /\ onNoteDelete plainDrawing (mkOptions false) "userA" boardA = boardA.
Proof.
  apply (@drawing_without_flags_is_ignored plainDrawing
           (savedChanges noteN1 plainDrawing) (mkOptions false) "userA" boardA).
  reflexivity.
Defined.

(** What the handler itself leaves alone: it sends nothing, saves and
    logs nothing, and writes no document. *)
Lemma onExternalPositionUpdate_handler data s :
  let s' := onExternalPositionUpdate data s in
  sent s' = sent s
  /\ scene s' = scene s
  /\ errors s' = errors s
  /\ drawings s' = drawings s
  /\ renderWrites s' = renderWrites s.
Proof.
  destruct data as [[id|] [position|]]; cbv zeta; try (repeat split; fail).
  unfold onExternalPositionUpdate. cbn [m_id m_position].
  destruct (nonEmpty id); [|repeat split].
  cbn [drawings emit with_emitted with_positions].
  destruct (get (drawings s) id); repeat split.
Qed.

(** X4.  A position that arrives over the socket is only put into the
    cache, when the refresh the handler starts has no pin colour to
    assign: the drawing of the note has its pin colour, or the pin
    setting is "none", or this client does not own the drawing.  Then
    neither the handler nor the refresh sends anything, saves or logs
    anything, or writes a document.  (Otherwise the refresh writes a pin
    colour into the document, and the change is saved and sent: see
    [remote_position_echoed_for_pinless_note].) *)
Theorem onExternalPositionUpdate_stays_local :
  forall settings random isOwner data s,
    (forall id drawing noteData,
        m_id data = Some id ->
        get (drawings s) id = Some drawing ->
        d_flags drawing = Some noteData ->
        str_or (f_pinColor noteData) "" <> ""%string)
    \/ Ui.pinColor settings = "none"%string
    \/ isOwner = false ->
    let s' :=
      Ui.withRefresh settings random isOwner (onExternalPositionUpdate data) s in
    s' = onExternalPositionUpdate data s
    /\ sent s' = sent s
    /\ scene s' = scene s
    /\ errors s' = errors s
    /\ drawings s' = drawings s
    /\ renderWrites s' = renderWrites s.
Proof.
  intros settings random isOwner data s Hpin. cbv zeta.
  assert (E : Ui.withRefresh settings random isOwner
                (onExternalPositionUpdate data) s
              = onExternalPositionUpdate data s).
  { unfold Ui.withRefresh. cbv zeta.
    destruct data as [[id|] [position|]];
      try (rewrite startedSince_same by reflexivity; reflexivity).
    unfold onExternalPositionUpdate. cbn [m_id m_position] in *.
    destruct (nonEmpty id);
      [|rewrite startedSince_same by reflexivity; reflexivity].
    cbn [drawings emit with_emitted with_positions].
    destruct (get (drawings s) id) as [drawing|] eqn:G;
      [|rewrite startedSince_same by reflexivity; reflexivity].
    unfold Ui.startedSince. cbn [refreshed with_refreshed].
    rewrite skipn_length_app. cbn [fold_left].
    unfold Ui.refresh, Ui.assignPin, emit.
    cbn [drawings with_refreshed with_emitted with_positions]. rewrite G.
    destruct (d_flags drawing) as [noteData|] eqn:F; [|reflexivity].
    destruct (String.eqb (Ui.pinColor settings) "none") eqn:N; [reflexivity|].
    destruct Hpin as [Hpin|[Hnone| ->]].
    - specialize (Hpin id drawing noteData eq_refl G F).
      destruct (f_pinColor noteData) as [[|c r]|];
        [now elim Hpin | reflexivity | now elim Hpin].
    - rewrite Hnone in N. discriminate.
    - now destruct (f_pinColor noteData) as [[|c r]|]. }
  rewrite E. split; [reflexivity|].
  apply onExternalPositionUpdate_handler.
Qed.

Lemma onExternalPositionUpdate_stays_local_witness :
  let data := mkMessage (Some "n1"%string) (Some (stickyAt "n1" 5 7)) in
  let s' :=
    Ui.withRefresh defaults (1 # 2) true (onExternalPositionUpdate data)
                   boardPinned in
  s' = onExternalPositionUpdate data boardPinned
  /\ sent s' = sent boardPinned
  /\ scene s' = scene boardPinned
  /\ errors s' = errors boardPinned
  /\ drawings s' = drawings boardPinned
  /\ renderWrites s' = renderWrites boardPinned.
Proof.
  apply (@onExternalPositionUpdate_stays_local defaults (1 # 2) true
           (mkMessage (Some "n1"%string) (Some (stickyAt "n1" 5 7)))
           boardPinned).
  left. intros id drawing noteData [= <-] [= <-] [= <-]. discriminate.
Defined.

(** The refresh of a note without pin colour echoes a remote position:
    the owner's client writes a pin colour into the document without
    [noSocket], so that the hook records the local document in the place
    of the position received, and sends it to the others. *)
Lemma remote_position_echoed_for_pinless_note :
  let remote := stickyAt "n1" 5 7 in
  let data := mkMessage (Some "n1"%string) (Some remote) in
  let s' :=
    Ui.withRefresh defaults (1 # 2) true (onExternalPositionUpdate data)
                   boardCanvas in
  let local :=
    positionOf (applyUpdate
                  (mkUpdate None None None None None None None None
                            None None None (Some "yellowPin.webp"%string) None)
                  docN1) 1000 in
  getPosition "n1" (onExternalPositionUpdate data boardCanvas) = Some remote
  /\ getPosition "n1" s' = Some local
  /\ local <> remote
  /\ sent s' = [mkMessage (Some "n1"%string) (Some local)]
  /\ map (fun w => noSocket (snd w)) (renderWrites s') = [false].
Proof.
  repeat split. discriminate.
Qed.



End CacheProperties.

(** ** Saving and loading *)

Module PersistenceProperties.

Import JsObj JsObjFacts JsObjMoreFacts Board NotePositionManager ManagerQueries.
Import Samples MoreSamples ManagerFacts SyncProperties Specs.

Lemma loadPositions_positions s sc :
  scene s = Some sc -> positions (loadPositions s) = stored sc.
Proof.
  intros H. unfold loadPositions. rewrite H. fold (stored sc).
  unfold entries. cbn [positions with_positions emit with_emitted].
  destruct (loadLoop_shape (stored sc) (with_positions (stored sc) s))
    as (ds & ws & Eq & _).
  rewrite Eq. reflexivity.
Qed.

Lemma loadPositions_drawings s sc :
  scene s = Some sc ->
  drawings (loadPositions s)
  = drawings (fold_left loadEntry (stored sc) (with_positions (stored sc) s)).
Proof.
  intros H. unfold loadPositions. rewrite H. reflexivity.
Qed.

(** X6.  What [updatePosition] saves, [loadPositions] reads back: when
    there is a scene and the write is accepted, a client that loads the
    scene afterwards has exactly the positions of the client that saved. *)
Theorem saved_positions_load_back :
  forall document userId s sc peer,
    scene s = Some sc ->
    setFlagRejects s = false ->
    scene peer = scene (updatePosition document userId s) ->
    positions (loadPositions peer)
    = positions (updatePosition document userId s).
Proof.
  intros document userId s sc peer Hsc Hacc Hpeer.
  rewrite updatePosition_scene in Hpeer.
  unfold savedScene_after in Hpeer. simpl in Hpeer.
  rewrite Hsc, Hacc in Hpeer.
  rewrite (loadPositions_positions _ Hpeer).
  now rewrite updatePosition_positions.
Qed.

Lemma saved_positions_load_back_witness :
  positions
    (loadPositions
       (with_scene (scene (updatePosition docN2 "userA" boardA)) boardStale))
  = positions (updatePosition docN2 "userA" boardA).
Proof.
  apply (@saved_positions_load_back docN2 "userA" boardA (mkScene None)
           (with_scene (scene (updatePosition docN2 "userA" boardA)) boardStale));
    reflexivity.
Defined.

Lemma numChange_None saved live :
  numChange saved live = None -> num_shows saved live.
Proof.
  destruct saved as [v|]; simpl; [|trivial].
  destruct live as [w|]; simpl; [|discriminate].
  destruct (Qeq_bool w v) eqn:E; simpl; [|discriminate].
  intros _. exists w. split; [reflexivity|]. now apply Qeq_bool_iff.
Qed.

Lemma strChange_None saved live :
  strChange saved live = None -> val_shows saved live.
Proof.
  destruct saved as [v|]; simpl; [|trivial].
  destruct live as [w|]; simpl; [|discriminate].
  destruct (String.eqb w v) eqn:E; simpl; [|discriminate].
  intros _. apply String.eqb_eq in E. now subst.
Qed.

Lemma textChange_None saved live :
  textChange saved live = None -> val_shows saved live.
Proof.
  destruct saved as [v|]; simpl; [|trivial].
  destruct live as [w|]; simpl; [|discriminate].
  unfold JsString.eqb. destruct (list_eq_dec N.eq_dec w v); simpl;
    [intros _; now subst | discriminate].
Qed.

Lemma isSome_false {A : Type} (a : option A) : isSome a = false -> a = None.
Proof. destruct a; [discriminate | reflexivity]. Qed.

(** A drawing for which [loadPositions] finds nothing to write shows the
    saved position. *)
Lemma no_changes_shows position drawing :
  hasKeys (savedChanges position drawing) = false -> shows drawing position.
Proof.
  unfold hasKeys. rewrite !orb_false_iff.
  intros ((((((((((((H1 & H2) & H3) & H4) & H5) & H6) & H7) & H8) & H9)
              & H10) & H11) & H12) & H13).
  apply isSome_false in H1, H2, H3, H4, H5, H6, H7, H8, H9, H10, H11, H12, H13.
  unfold savedChanges in *.
  cbn [u_x u_y u_rotation u_z u_width u_height u_scaleX u_scaleY u_type
       u_text u_image u_pinColor u_identityName] in *.
  unfold shows.
  repeat split;
    first [now apply numChange_None | now apply strChange_None
          | now apply textChange_None].
Qed.

(** X7.  After [loadPositions] on a scene whose snapshot is an object,
    every drawing of the canvas that has a saved position shows it: each
    value the saved position holds (place, rotation, size, scale, type,
    text, image, pin colour, identity name) is the value of the drawing. *)
Theorem loadPositions_canvas_shows_snapshot :
  forall s sc id position drawing,
    scene s = Some sc ->
    wf (stored sc) ->
    In (id, position) (stored sc) ->
    get (drawings (loadPositions s)) id = Some drawing ->
    shows drawing position.
Proof.
  intros s sc id position drawing Hsc Hwf Hin Hget.
  rewrite (loadPositions_drawings _ Hsc) in Hget.
  apply no_changes_shows.
  eapply (loadLoop_settles (with_positions (stored sc) s) Hwf); eauto.
Qed.

Lemma loadPositions_canvas_shows_snapshot_witness :
  shows (applyUpdate (savedChanges (stickyAt "n1" 5 7) (stickyDrawing "n1" 0 0))
                     (stickyDrawing "n1" 0 0))
        (stickyAt "n1" 5 7).
Proof.
  apply (@loadPositions_canvas_shows_snapshot boardStale savedScene
           "n1"%string (stickyAt "n1" 5 7)).
  - reflexivity.
  - unfold wf. simpl. constructor; [simpl; tauto | constructor].
  - simpl. left. reflexivity.
  - reflexivity.
Defined.

Lemma loadLoop_writes l : forall s,
  exists ws,
    renderWrites (fold_left loadEntry l s) = renderWrites s ++ ws
    /\ Forall (fun w => In (fst (fst w)) (keys l)) ws.
Proof.
  induction l as [|[id position] l IH]; intros s.
  - exists []. split; [simpl; now rewrite app_nil_r | constructor].
  - cbn [fold_left]. destruct (IH (loadEntry s (id, position))) as (ws & E & F).
    assert (F' : Forall (fun w : string * UpdateData * Options =>
                           In (fst (fst w)) (keys ((id, position) :: l))) ws).
    { eapply Forall_impl; [|exact F]. simpl. tauto. }
    rewrite E, loadEntry_eq.
    destruct (get (drawings s) id) as [drawing|]; [|now exists ws].
    cbv zeta. destruct (hasKeys _); [|now exists ws].
    eexists (_ :: ws). split.
    + cbn [renderWrites with_renderWrites]. rewrite <- app_assoc. reflexivity.
    + constructor; [simpl; now left | exact F'].
Qed.

(** X8.  [loadPositions] only writes to drawings that have a saved
    position: a drawing whose id is not in the snapshot is left as it is,
    and every [document.update] it issues is for an id of the snapshot. *)
Theorem loadPositions_leaves_other_drawings :
  forall s sc id,
    scene s = Some sc ->
    ~ In id (keys (stored sc)) ->
    get (drawings (loadPositions s)) id = get (drawings s) id
    /\ exists ws,
         renderWrites (loadPositions s) = renderWrites s ++ ws
         /\ Forall (fun w => In (fst (fst w)) (keys (stored sc))) ws.
Proof.
  intros s sc id Hsc Hn. split.
  - rewrite (loadPositions_drawings _ Hsc).
    now rewrite loadLoop_other.
  - unfold loadPositions. rewrite Hsc. fold (stored sc). unfold entries.
    cbn [positions with_positions renderWrites emit with_emitted].
    apply (loadLoop_writes (stored sc) (with_positions (stored sc) s)).
Qed.

Lemma loadPositions_leaves_other_drawings_witness :
  get (drawings (loadPositions boardStale)) "d9" = get (drawings boardStale) "d9"
  /\ exists ws,
       renderWrites (loadPositions boardStale) = renderWrites boardStale ++ ws
       /\ Forall (fun w => In (fst (fst w)) (keys (stored savedScene))) ws.
Proof.
  apply (@loadPositions_leaves_other_drawings boardStale savedScene
           "d9"%string).
  - reflexivity.
  - simpl. intros [H|[]]. discriminate H.
Defined.

(** X9.  A note recorded by [updatePosition] is found by
    [getNotesByType] under the type of its flags, and under sticky when
    the flags have no type or an empty one; and [getNotesByType] never
    returns a record of another type. *)
Theorem recorded_note_found_by_type :
  forall document userId s,
    let s' := updatePosition document userId s in
    let type := str_or (opt_field (d_flags document) f_type) "sticky" in
    In (positionOf document (now s)) (getNotesByType type s')
    /\ forall other pos,
         In pos (getNotesByType other s') ->
         n_type pos = Some other /\ In pos (values (positions s')).
Proof.
  intros document userId s s' type. split.
  - unfold getNotesByType. apply filter_In. split.
    + apply get_In_values with (k := d_id document).
      subst s'. rewrite updatePosition_positions. apply get_set_same.
    + simpl. apply String.eqb_refl.
  - intros other pos H. unfold getNotesByType in H.
    apply filter_In in H. destruct H as [Hin Ht]. split; [|assumption].
    unfold str_is in Ht. destruct (n_type pos) as [t|]; [|discriminate].
    apply String.eqb_eq in Ht. now subst.
Qed.

End PersistenceProperties.

(** ** Queries, continued *)

Module QueryMoreProperties.

Import JsObj Board NotePositionManager ManagerQueries Samples MoreSamples.
Import JsStringFacts JsNumFacts QueryProperties.

Lemma occurs_in_trans a b c : occurs_in a b -> occurs_in b c -> occurs_in a c.
Proof.
  intros (p1 & q1 & ->) (p2 & q2 & ->).
  exists (p2 ++ p1), (q1 ++ q2). now rewrite <- !app_assoc.
Qed.

(** X10.  A longer query finds fewer notes: when the lower-cased query
    [short] occurs in the lower-cased query [long], every note
    [searchNotesByText] returns for [long] it returns for [short] too. *)
Theorem searchNotesByText_narrows :
  forall (toLowerCase : jsstring -> jsstring) (short long : jsstring)
         (s : Manager) (pos : NoteRecord),
    occurs_in (toLowerCase short) (toLowerCase long) ->
    In pos (searchNotesByText toLowerCase long s) ->
    In pos (searchNotesByText toLowerCase short s).
Proof.
  intros toLowerCase short long s pos Hocc H.
  unfold searchNotesByText in *. apply filter_In in H. apply filter_In.
  destruct H as [Hin Hm]. split; [assumption|].
  unfold textMatches in *. destruct (n_text pos) as [[|c t]|]; try discriminate.
  apply includes_spec. apply includes_spec in Hm.
  eapply occurs_in_trans; eauto.
Qed.

Lemma searchNotesByText_narrows_witness :
  In noteN1 (searchNotesByText asciiLower (str "LUE") boardA).
Proof.
  apply (@searchNotesByText_narrows asciiLower (str "LUE") (str "Clue #")
           boardA noteN1).
  - exists (str "c"), (str " #"). reflexivity.
  - simpl. left. reflexivity.
Defined.

(** X11.  With a bound that is zero or negative [findNearestNote] finds
    nothing, whatever the positions: a note at the very point asked for
    is not found with [maxDistance = 0]. *)
Theorem findNearestNote_needs_positive_bound :
  forall x y m s,
    (m <= 0)%Q ->
    findNearestNote x y (Some m) s = None.
Proof.
  intros x y m s Hm.
  pose proof (findNearestNote_bound x y m s) as H.
  destruct (findNearestNote x y (Some m) s) as [pos|]; [|reflexivity].
  destruct H as (before & after & _ & Hlt & _).
  unfold distanceTo in Hlt. cbv zeta in Hlt.
  rewrite Math_sqrt_not_below in Hlt by assumption. discriminate.
Qed.

Lemma findNearestNote_needs_positive_bound_witness :
  findNearestNote 0 0 (Some 0%Q) boardA = None.
Proof.
  apply (@findNearestNote_needs_positive_bound 0 0 0 boardA).
  discriminate.
Defined.

(** Two ways to split a list at an element. *)
Lemma split_cases {A : Type} (b1 a1 b2 a2 : list A) (p1 p2 : A) :
  b1 ++ p1 :: a1 = b2 ++ p2 :: a2 ->
  (b1 = b2 /\ p1 = p2 /\ a1 = a2)
  \/ (In p1 b2 /\ In p2 a1)
  \/ (In p2 b1 /\ In p1 a2).
Proof.
  revert b2. induction b1 as [|c b1 IH]; intros [|d b2] H; simpl in H.
  - injection H as H1 H2. subst. now left.
  - injection H as H1 H2. subst. right. left. split; [now left|].
    apply in_or_app. right. now left.
  - injection H as H1 H2. subst. right. right. split; [now left|].
    apply in_or_app. right. now left.
  - injection H as H1 H2. subst d.
    destruct (IH _ H2) as [(-> & -> & ->)|[[H3 H4]|[H3 H4]]].
    + now left.
    + right. left. split; [now right | assumption].
    + right. right. split; [now right | assumption].
Qed.

(** X12.  A larger bound does not change a hit: the note
    [findNearestNote] returns within [m] is the note it returns within
    any [m'] that is at least [m]. *)
Theorem findNearestNote_larger_bound :
  forall x y m m' s pos,
    (m <= m')%Q ->
    findNearestNote x y (Some m) s = Some pos ->
    findNearestNote x y (Some m') s = Some pos.
Proof.
  intros x y m m' s pos Hm Hres.
  pose proof (findNearestNote_bound x y m s) as H.
  pose proof (findNearestNote_bound x y m' s) as H'.
  rewrite Hres in H.
  destruct H as (b & a & Hs & Hlt & Hb & Ha).
  apply le_Fin_iff in Hm.
  destruct (findNearestNote x y (Some m') s) as [pos'|].
  - destruct H' as (b' & a' & Hs' & Hlt' & Hb' & Ha').
    rewrite Hs in Hs'.
    destruct (split_cases _ _ _ _ _ _ Hs')
      as [(_ & -> & _)|[[H1 H2]|[H1 H2]]].
    + reflexivity.
    + specialize (Hb' _ H1). specialize (Ha _ H2).
      rewrite (not_lt_le _ _ _ _ Hlt Hlt' Ha) in Hb'. discriminate.
    + specialize (Hb _ H1). specialize (Ha' _ H2).
      rewrite (not_lt_le _ _ _ _ Hlt' Hlt Ha') in Hb. discriminate.
  - exfalso.
    assert (Hin : In pos (values (positions s)))
      by (rewrite Hs; apply in_or_app; right; now left).
    specialize (H' _ Hin).
    rewrite (lt_le_trans _ _ _ Hlt Hm) in H'. discriminate.
Qed.

Lemma findNearestNote_larger_bound_witness :
  findNearestNote 1 0 (Some 500%Q) boardTie = Some noteB.
Proof.
  apply (@findNearestNote_larger_bound 1 0 100 500 boardTie noteB).
  - discriminate.
  - reflexivity.
Defined.

End QueryMoreProperties.

(** ** The character budget, continued *)

Module TruncationMoreProperties.

Import Board Truncation Samples MoreSamples Ui JsNumFacts TruncationProperties.

(** A built-in limit, scaled for a font size above 0, is Infinity or a
    whole number of at least 1 character once 0 and NaN have given way
    to 100. *)
Lemma scaled_limit_positive (base : Z) (fontSize : Q) :
  (0 < base)%Z -> (0 < fontSize)%Q ->
  let scaled :=
    Math_round (mul (ofZ base) (div BASE_FONT_SIZE (Fin fontSize))) in
  let limit := toNumber (or_else (VNum scaled) (VNum (ofZ 100))) in
  limit = PInf \/ exists n, (1 <= n)%Z /\ limit = ofZ n.
Proof.
  intros Hb Hf. cbv zeta.
  assert (N : notNegative
                (mul (ofZ base) (div BASE_FONT_SIZE (Fin fontSize)))).
  { apply notNegative_mul.
    - cbn. change 0%Q with (inject_Z 0). rewrite <- Zle_Qle. lia.
    - apply notNegative_div; cbn; [discriminate | now apply Qlt_le_weak]. }
  unfold or_else. cbn [truthy].
  destruct (Math_round_notNegative _ N) as [E|[E|(n & Hn & E)]].
  - rewrite E. right. exists 100%Z. split; [lia|reflexivity].
  - rewrite E. now left.
  - rewrite E. cbn [JsNum.truthy ofZ]. rewrite isZero_inject_Z.
    destruct (n =? 0)%Z eqn:Z0; [apply Z.eqb_eq in Z0; lia|].
    right. exists n. split; [assumption|reflexivity].
Qed.

(** X13.  For a font size above 0, base limits without an entry for the
    font, and a note type that is not the name of an inherited member,
    the limit is a whole number of at least one character, or Infinity
    when the scale [15 / fontSize] overflows: the arithmetic of doubles
    gives nothing negative here, and a limit that rounds to 0 is
    replaced by 100. *)
Theorem charLimit_at_least_one :
  forall baseCharacterLimits font noteType (fontSize : Q),
    truthy (prop (getBaseCharacterLimits baseCharacterLimits) font) = false ->
    (0 < fontSize)%Q ->
    JsObj.inheritedName noteType = false ->
    charLimit baseCharacterLimits font noteType (Fin fontSize) = PInf
    \/ exists n, (1 <= n)%Z
                 /\ charLimit baseCharacterLimits font noteType (Fin fontSize)
                    = ofZ n.
Proof.
  intros baseCharacterLimits font noteType fontSize H Hf Hn.
  unfold charLimit.
  rewrite getDynamicCharacterLimits_without_font_entry by assumption.
  cbv zeta. unfold limitOf. cbn [sticky photo index].
  destruct (String.eqb noteType "sticky").
  { apply (@scaled_limit_positive 60 fontSize); [lia | assumption]. }
  destruct (String.eqb noteType "photo").
  { apply (@scaled_limit_positive 15 fontSize); [lia | assumption]. }
  destruct (String.eqb noteType "index").
  { apply (@scaled_limit_positive 200 fontSize); [lia | assumption]. }
  rewrite Hn. right. exists 100%Z. split; [lia | reflexivity].
Qed.

Lemma charLimit_at_least_one_witness :
  charLimit VUndef "Arial" "photo" (Fin 1000) = PInf
  \/ exists n, (1 <= n)%Z
               /\ charLimit VUndef "Arial" "photo" (Fin 1000) = ofZ n.
Proof.
  apply (@charLimit_at_least_one VUndef "Arial" "photo" 1000);
    reflexivity.
Defined.

(** X14.  At the font size 0 the scale is infinite: a sticky note, a
    photo and an index card keep their whole text, however long, when the
    base limits have no entry for the font. *)
Theorem truncateText_font_size_zero :
  forall baseCharacterLimits text font noteType,
    truthy (prop (getBaseCharacterLimits baseCharacterLimits) font) = false ->
    noteType = "sticky"%string \/ noteType = "photo"%string
    \/ noteType = "index"%string ->
    _truncateText baseCharacterLimits text font noteType (ofZ 0) = text.
Proof.
  intros baseCharacterLimits text font noteType H Ht.
  unfold _truncateText.
  assert (L : charLimit baseCharacterLimits font noteType (ofZ 0) = PInf).
  { unfold charLimit.
    rewrite getDynamicCharacterLimits_without_font_entry by assumption.
    destruct Ht as [->|[->| ->]]; reflexivity. }
  rewrite L. reflexivity.
Qed.

Lemma truncateText_font_size_zero_witness :
  _truncateText VUndef text80 "Arial" "sticky" (ofZ 0) = text80.
Proof.
  apply (@truncateText_font_size_zero VUndef text80 "Arial" "sticky").
  - reflexivity.
  - left. reflexivity.
Defined.

Lemma trimStart_length s : (List.length (trimStart s) <= List.length s)%nat.
Proof.
  induction s as [|c s IH]; simpl; [lia|].
  destruct (isWhiteSpace c); simpl; lia.
Qed.

Lemma trim_length s : (List.length (trim s) <= List.length s)%nat.
Proof.
  unfold trim, trimEnd. rewrite length_rev.
  eapply Nat.le_trans; [apply trimStart_length|].
  rewrite length_rev. apply trimStart_length.
Qed.

(** X15.  With a limit [n] that is not negative, the text
    [_truncateText] returns has at most [n + 3] characters: at most [n]
    of the text and the three of the ellipsis. *)
Theorem truncateText_length_bound :
  forall baseCharacterLimits text font noteType currentFontSize n,
    charLimit baseCharacterLimits font noteType currentFontSize = ofZ n ->
    (0 <= n)%Z ->
    (JsString.length
       (_truncateText baseCharacterLimits text font noteType currentFontSize)
     <= n + 3)%Z.
Proof.
  intros baseCharacterLimits text font noteType currentFontSize n H Hn.
  unfold _truncateText. rewrite H, le_ofZ.
  destruct (JsString.length text <=? n)%Z eqn:E.
  - apply Z.leb_le in E. lia.
  - rewrite slice0_ofZ by assumption. unfold JsString.length.
    rewrite length_app. pose proof (trim_length (firstn (Z.to_nat n) text)) as T.
    pose proof (firstn_le_length (Z.to_nat n) text) as F.
    rewrite length_firstn in T.
    change (List.length ellipsis) with 3%nat. lia.
Qed.

Lemma truncateText_length_bound_witness :
  (JsString.length (_truncateText VUndef spaced80 "Arial" "sticky" (ofZ 15))
   <= 60 + 3)%Z.
Proof.
  apply (@truncateText_length_bound VUndef spaced80 "Arial" "sticky"
           (ofZ 15) 60).
  - reflexivity.
  - lia.
Defined.


End TruncationMoreProperties.

(** ** The event system *)

Module EventProperties.

Import JsObj JsObjFacts JsObjMoreFacts Events.

Lemma get_set_eqb (V : Type) (o : obj V) k k' v :
  get (set o k v) k' = if String.eqb k' k then Some v else get o k'.
Proof.
  destruct (String.eqb k' k) eqn:E.
  - apply String.eqb_eq in E. subst. apply get_set_same.
  - apply String.eqb_neq in E. apply get_set_other. congruence.
Qed.

Lemma slot_set_eqb (callbacks : Callbacks) k k' v :
  slot (set callbacks k v) k'
  = if String.eqb k' k then Array v else slot callbacks k'.
Proof.
  unfold slot. rewrite get_set_eqb. now destruct (String.eqb k' k).
Qed.

(** An event named like a member of [Object.prototype] cannot be used:
    [this.callbacks["constructor"]] is the function [Object], and
    [on], [off] and [emit] throw on it. *)
Lemma inherited_event_throws :
  on "constructor" 1%nat [] = None
  /\ off "constructor" 1%nat [] = None
  /\ emit_calls "constructor" [] = None
  /\ emit_calls "toString" [("positionsUpdated"%string, [1%nat])] = None
  /\ on "positionsUpdated" 1%nat [] = Some [("positionsUpdated"%string, [1%nat])].
Proof. repeat split. Qed.

(** X17.  When [emit(event)] does not throw, it calls the callbacks of
    the event in the order of their registration; [on] adds at the end;
    after [off(event, cb)] an [emit] of the event does not call [cb] any
    more, however often it was registered, and calls the other callbacks
    as before; the callbacks of the other events are not touched.
    [emit(event)] throws exactly when the event has no callbacks of its
    own and is named like a member every object inherits; then [on] and
    [off] throw as well, so no callback can be registered for it. *)
Theorem off_silences_callback :
  forall (event other : string) (cb : callback) (callbacks : Callbacks),
    match emit_calls event callbacks with
    | Some calls =>
        exists added removed,
          on event cb callbacks = Some added
          /\ off event cb callbacks = Some removed
          /\ emit_calls other added
             = (if String.eqb other event
                then Some (calls ++ [cb])
                else emit_calls other callbacks)
          /\ emit_calls other removed
             = (if String.eqb other event
                then Some (filter (fun c => negb (Nat.eqb c cb)) calls)
                else emit_calls other callbacks)
          /\ (forall calls',
                emit_calls event removed = Some calls' -> ~ In cb calls')
    | None =>
        get callbacks event = None
        /\ inheritedName event = true
        /\ on event cb callbacks = None
        /\ off event cb callbacks = None
    end.
Proof.
  intros event other cb callbacks.
  unfold emit_calls at 1. unfold slot.
  destruct (get callbacks event) as [registered|] eqn:G.
  - (* callbacks are registered *)
    assert (S : slot callbacks event = Array registered)
      by (unfold slot; now rewrite G).
    exists (set callbacks event (registered ++ [cb])),
           (set callbacks event
                (filter (fun c => negb (Nat.eqb c cb)) registered)).
    split; [unfold on; now rewrite S, S|].
    split; [unfold off; now rewrite S|].
    unfold emit_calls. rewrite !slot_set_eqb, String.eqb_refl.
    split; [now destruct (String.eqb other event)|].
    split; [now destruct (String.eqb other event)|].
    intros calls' [= <-] H. apply filter_In in H. destruct H as [_ H].
    now rewrite Nat.eqb_refl in H.
  - destruct (inheritedName event) eqn:I.
    + (* the name of an inherited member *)
      assert (S : slot callbacks event = Inherited)
        by (unfold slot; now rewrite G, I).
      split; [reflexivity|]. split; [reflexivity|].
      split; [unfold on; now rewrite S, S | unfold off; now rewrite S].
    + (* no callbacks yet *)
      assert (S : slot callbacks event = Missing)
        by (unfold slot; now rewrite G, I).
      exists (set callbacks event [cb]), callbacks.
      split.
      { unfold on. rewrite S, slot_set_eqb, String.eqb_refl.
        now rewrite set_set_last. }
      split; [unfold off; now rewrite S|].
      unfold emit_calls. rewrite slot_set_eqb.
      split.
      { destruct (String.eqb other event) eqn:E; [reflexivity|].
        reflexivity. }
      split.
      { destruct (String.eqb other event) eqn:E; [|reflexivity].
        apply String.eqb_eq in E. subst. now rewrite S. }
      rewrite S. now intros calls' [= <-].
Qed.

End EventProperties.

(** ** The dialog, the sheet and the drawing *)

Module UiProperties.

Import JsObj JsObjFacts JsObjMoreFacts Board NotePositionManager ManagerQueries.
Import Truncation Samples MoreSamples Ui ManagerFacts.

(** X18.  The text cell of the dialog has at most 18 characters, the
    first 15 of the text and the ellipsis; a text of at most 15
    characters is shown whole, and a note without text gives an empty
    cell. *)
Theorem textCell_bound :
  forall text : option jsstring,
    (List.length (textCell text) <= 18)%nat
    /\ textCell text
       = match text with
         | Some t =>
             if (JsString.length t <=? 15)%Z then t
             else firstn 15 t ++ ellipsis
         | None => []
         end.
Proof.
  intros [t|]; [|split; [simpl; lia | reflexivity]].
  unfold textCell, JsString.length.
  pose proof (firstn_le_length 15 t) as F.
  pose proof (length_firstn 15 t) as L.
  destruct (15 <? Z.of_nat (List.length t))%Z eqn:E.
  - apply Z.ltb_lt in E.
    destruct (Z.of_nat (List.length t) <=? 15)%Z eqn:E';
      [apply Z.leb_le in E'; lia|].
    split; [|reflexivity].
    rewrite length_app, L. change (List.length ellipsis) with 3%nat. lia.
  - apply Z.ltb_ge in E.
    destruct (Z.of_nat (List.length t) <=? 15)%Z eqn:E';
      [|apply Z.leb_gt in E'; lia].
    rewrite app_nil_r, firstn_all2 by lia. split; [lia | reflexivity].
Qed.

Lemma str_or_nonempty a d : d <> ""%string -> str_or a d <> ""%string.
Proof. intros H. destruct a as [[|c r]|]; simpl; congruence. Qed.

Lemma str_or_keeps s : s <> ""%string -> str_or (Some s) "" = s.
Proof. destruct s; [congruence | reflexivity]. Qed.

Lemma text_or_nil t : text_or (Some t) [] = t.
Proof. now destruct t. Qed.

Lemma updatePosition_drawings document userId s :
  drawings (updatePosition document userId s) = drawings s.
Proof.
  unfold updatePosition, savePositions. simpl.
  destruct (scene s); [destruct (setFlagRejects s)|]; simpl;
    match goal with |- context [if ?c then _ else _] => destruct c end;
    reflexivity.
Qed.

Lemma updatePosition_refreshed document userId s :
  refreshed (updatePosition document userId s) = refreshed s.
Proof.
  unfold updatePosition, savePositions. simpl.
  destruct (scene s); [destruct (setFlagRejects s)|]; simpl;
    match goal with |- context [if ?c then _ else _] => destruct c end;
    reflexivity.
Qed.

(** The update handler acts on a change of a note that holds one of
    the properties the manager tracks. *)
Lemma onNoteUpdate_tracked document noteData updateData options userId s :
  noSocket options = false ->
  d_flags document = Some noteData ->
  hasKeys updateData = true ->
  onNoteUpdate document updateData options userId s
  = updatePosition document userId s.
Proof.
  intros Hn Hf Hk. unfold onNoteUpdate. rewrite Hn, Hf.
  match goal with |- (if ?c then _ else _) = _ => destruct c eqn:C end;
    [reflexivity|].
  exfalso. rewrite !orb_false_iff in C.
  destruct C as [[[[[[[C1 C2] C3] C4] C5] C6] [C7 C8]]
                   [[[[C9 C10] C11] C12] C13]].
  unfold hasKeys in Hk.
  rewrite C1, C2, C3, C4, C5, C6, C7, C8, C9, C10, C11, C12, C13 in Hk.
  discriminate.
Qed.

(** What [_updateObject] does for a drawing of the canvas. *)
Lemma _updateObject_eq id object formData s :
  get (drawings s) id = Some object ->
  let document := applyUpdate (sheetUpdates formData) object in
  _updateObject id formData s
  = let s1 :=
      with_renderWrites
        (renderWrites s ++ [(id, sheetUpdates formData, mkOptions false)])
        (with_drawings (set (drawings s) id document) s) in
    let s2 := updatePosition document (gameUserId s) s1 in
    with_refreshed (refreshed s2 ++ [id]) s2.
Proof.
  intros G. cbv zeta. unfold _updateObject. rewrite G.
  unfold document_update.
  cbn [gameUserId renderWrites with_renderWrites with_drawings].
  erewrite onNoteUpdate_tracked; [|reflexivity|reflexivity|reflexivity].
  rewrite updatePosition_drawings.
  cbn [drawings with_renderWrites with_drawings].
  now rewrite get_set_same.
Qed.

(** X19.  When the sheet of a drawing of the canvas is submitted, the
    sheet shows afterwards what was submitted: the type, the text and the
    image of the form, with sticky, the default text and the placeholder
    image in the place of an empty entry. *)
Theorem sheet_shows_what_was_submitted :
  forall id object formData s,
    get (drawings s) id = Some object ->
    exists object',
      get (drawings (_updateObject id formData s)) id = Some object'
      /\ sd_noteType (getData object')
         = str_or (Some (fd_noteType formData)) "sticky"
      /\ sd_text (getData object')
         = text_or (Some (fd_text formData)) (str "Default Text")
      /\ sd_image (getData object')
         = str_or (Some (fd_image formData)) placeholder.
Proof.
  intros id object formData s G.
  exists (applyUpdate (sheetUpdates formData) object).
  rewrite (@_updateObject_eq id object formData s G). cbv zeta.
  split.
  - cbn [drawings with_refreshed]. rewrite updatePosition_drawings.
    apply get_set_same.
  - repeat split.
    unfold getData. cbn. now destruct (fd_image formData).
Qed.

Lemma sheet_shows_what_was_submitted_witness :
  exists object',
    get (drawings (_updateObject "n1" form boardCanvas)) "n1" = Some object'
    /\ sd_noteType (getData object') = str_or (Some (fd_noteType form)) "sticky"
    /\ sd_text (getData object')
       = text_or (Some (fd_text form)) (str "Default Text")
    /\ sd_image (getData object') = str_or (Some (fd_image form)) placeholder.
Proof.
  apply (@sheet_shows_what_was_submitted "n1" docN1 form boardCanvas).
  reflexivity.
Defined.

Lemma append_nonempty a b : b <> ""%string -> (a ++ b)%string <> ""%string.
Proof. intros H. destruct a; simpl; [assumption | discriminate]. Qed.

Lemma newPinColor_nonempty pinSetting random chosen :
  newPinColor pinSetting random = Some chosen -> chosen <> ""%string.
Proof.
  unfold newPinColor. destruct (String.eqb pinSetting "random").
  - destruct (_ <? 0)%Z; [discriminate|].
    intros H. apply nth_error_In in H. simpl in H.
    destruct H as [<-|[<-|[<-|[<-|[]]]]]; discriminate.
  - intros [= <-]. apply append_nonempty. discriminate.
Qed.

(** [applyUpdate] with a pin colour alone leaves the rest of the flags. *)
Lemma pin_update_keeps document noteData chosen :
  d_flags document = Some noteData ->
  let document' :=
    applyUpdate (mkUpdate None None None None None None None None
                          None None None (Some chosen) None) document in
  d_id document' = d_id document
  /\ opt_field (d_flags document') f_type = f_type noteData
  /\ opt_field (d_flags document') f_text = f_text noteData
  /\ opt_field (d_flags document') f_image = f_image noteData.
Proof. intros F. cbn. rewrite F. repeat split. Qed.

(** X20.  A submitted sheet reaches the cache and the other clients,
    the refresh that [_updateObject] starts included: the record of the
    drawing then holds the submitted type (sticky for an empty one), the
    submitted text and the submitted image (the placeholder for an empty
    one), and with a socket that record is the last one sent to the
    others.  It is the only one sent when the note has its pin colour,
    when the pin setting is "none" and when this client does not own the
    drawing; otherwise the refresh can write a pin colour into the
    document, and then a record without the pin colour, with the same
    type, text and image, was sent before it. *)
Theorem sheet_submit_is_recorded_and_sent :
  forall settings random isOwner id object formData s,
    get (drawings s) id = Some object ->
    d_id object = id ->
    let s' := withRefresh settings random isOwner (_updateObject id formData) s in
    let submitted (p : NoteRecord) :=
      n_type p = Some (str_or (Some (fd_noteType formData)) "sticky")
      /\ n_text p = Some (fd_text formData)
      /\ n_image p = Some (str_or (Some (fd_image formData)) placeholder) in
    exists position earlier,
      getPosition id s' = Some position
      /\ submitted position
      /\ sent s'
         = (if socket s
            then sent s ++ earlier ++ [mkMessage (Some id) (Some position)]
            else sent s)
      /\ (earlier = []
          \/ exists p, earlier = [mkMessage (Some id) (Some p)]
                       /\ submitted p
                       /\ n_pinColor p = Some ""%string
                       /\ n_pinColor position <> Some ""%string)
      /\ (str_or (opt_field (d_flags object) f_pinColor) "" <> ""%string
          \/ pinColor settings = "none"%string
          \/ isOwner = false ->
          earlier = []).
Proof.
  intros settings random isOwner id object formData s G Hid. cbv zeta.
  set (document := applyUpdate (sheetUpdates formData) object).
  set (s1 := with_renderWrites
               (renderWrites s ++ [(id, sheetUpdates formData, mkOptions false)])
               (with_drawings (set (drawings s) id document) s)).
  set (s2 := updatePosition document (gameUserId s) s1).
  set (s3 := with_refreshed (refreshed s2 ++ [id]) s2).
  assert (Hd : d_id document = id) by (subst document; exact Hid).
  assert (E3 : _updateObject id formData s = s3)
    by (apply (@_updateObject_eq id object formData s G)).
  assert (R2 : refreshed s2 = refreshed s)
    by (subst s2; now rewrite updatePosition_refreshed).
  assert (E : withRefresh settings random isOwner (_updateObject id formData) s
              = assignPin settings id random isOwner s3).
  { unfold withRefresh. cbv zeta. rewrite E3. unfold startedSince.
    subst s3. cbn [refreshed with_refreshed]. rewrite R2.
    now rewrite skipn_length_app. }
  rewrite E. clear E E3.
  assert (G3 : get (drawings s3) id = Some document).
  { subst s3 s2. cbn [drawings with_refreshed].
    rewrite updatePosition_drawings. subst s1.
    cbn [drawings with_renderWrites with_drawings]. apply get_set_same. }
  set (P1 := positionOf document (now s)).
  assert (HP1 : get (positions s3) id = Some P1).
  { subst s3 s2. cbn [positions with_refreshed].
    rewrite updatePosition_positions, Hd. apply get_set_same. }
  assert (S3 : sent s3
               = if socket s
                 then sent s ++ [mkMessage (Some id) (Some P1)]
                 else sent s).
  { subst s3 s2. cbn [sent with_refreshed]. rewrite updatePosition_sent.
    subst s1.
    cbn [socket gameUserId now sent with_renderWrites with_drawings].
    now rewrite Hd, String.eqb_refl, andb_true_r. }
  assert (Sub1 : n_type P1 = Some (str_or (Some (fd_noteType formData)) "sticky")
                 /\ n_text P1 = Some (fd_text formData)
                 /\ n_image P1
                    = Some (str_or (Some (fd_image formData)) placeholder)).
  { subst P1 document. cbn. repeat split.
    - now destruct (fd_text formData).
    - now destruct (fd_image formData). }
  assert (Pin1 : n_pinColor P1
                 = Some (str_or (opt_field (d_flags object) f_pinColor) "")).
  { subst P1 document. reflexivity. }
  (* the refresh does nothing *)
  assert (Inert : assignPin settings id random isOwner s3 = s3 ->
    exists position earlier,
      getPosition id (assignPin settings id random isOwner s3) = Some position
      /\ (n_type position = Some (str_or (Some (fd_noteType formData)) "sticky")
          /\ n_text position = Some (fd_text formData)
          /\ n_image position
             = Some (str_or (Some (fd_image formData)) placeholder))
      /\ sent (assignPin settings id random isOwner s3)
         = (if socket s
            then sent s ++ earlier ++ [mkMessage (Some id) (Some position)]
            else sent s)
      /\ (earlier = []
          \/ exists p, earlier = [mkMessage (Some id) (Some p)]
                       /\ (n_type p
                           = Some (str_or (Some (fd_noteType formData)) "sticky")
                           /\ n_text p = Some (fd_text formData)
                           /\ n_image p
                              = Some (str_or (Some (fd_image formData))
                                             placeholder))
                       /\ n_pinColor p = Some ""%string
                       /\ n_pinColor position <> Some ""%string)
      /\ (str_or (opt_field (d_flags object) f_pinColor) "" <> ""%string
          \/ pinColor settings = "none"%string
          \/ isOwner = false ->
          earlier = [])).
  { intros ->. exists P1, []. unfold getPosition.
    split; [exact HP1|]. split; [exact Sub1|]. split; [exact S3|].
    split; [now left | reflexivity]. }
  destruct (d_flags document) as [noteData|] eqn:F;
    [|apply Inert; unfold assignPin; now rewrite G3, F].
  assert (Fpin : f_pinColor noteData = opt_field (d_flags object) f_pinColor).
  { subst document. cbn in F. injection F as <-. reflexivity. }
  destruct (String.eqb (pinColor settings) "none") eqn:N;
    [apply Inert; unfold assignPin; now rewrite G3, F, N|].
  destruct (str_or (f_pinColor noteData) "") as [|c r] eqn:P;
    [|apply Inert; unfold assignPin; rewrite G3, F, N;
      destruct (f_pinColor noteData) as [[|c' r']|]; try discriminate;
      reflexivity].
  destruct isOwner;
    [|apply Inert; unfold assignPin; rewrite G3, F, N;
      now destruct (f_pinColor noteData) as [[|c' r']|]].
  destruct (newPinColor (pinColor settings) random) as [chosen|] eqn:C.
  - (* the refresh writes the pin colour [chosen] *)
    set (u := mkUpdate None None None None None None None None
                       None None None (Some chosen) None).
    set (document' := applyUpdate u document).
    destruct (@pin_update_keeps document noteData chosen F) as (Hd' & Kt & Kx & Ki).
    fold u document' in Hd', Kt, Kx, Ki.
    assert (E : assignPin settings id random true s3
                = updatePosition document' (gameUserId s3)
                    (with_renderWrites
                       (renderWrites s3 ++ [(id, u, mkOptions false)])
                       (with_drawings (set (drawings s3) id document') s3))).
    { unfold assignPin. rewrite G3, F, N. cbv zeta. rewrite C.
      assert (Hcase : match f_pinColor noteData with
                      | Some EmptyString | None => True
                      | Some _ => False
                      end).
      { destruct (f_pinColor noteData) as [[|c r]|]; simpl in P;
          [exact I | discriminate | exact I]. }
      destruct (f_pinColor noteData) as [[|c r]|]; try contradiction;
        unfold document_update;
        cbn [gameUserId renderWrites with_renderWrites with_drawings];
        now erewrite onNoteUpdate_tracked;
          [|reflexivity|subst document' u; reflexivity|reflexivity]. }
    rewrite E. clear E.
    set (P2 := positionOf document' (now s)).
    assert (Hnow : now s3 = now s).
    { subst s3 s2. cbn [now with_refreshed].
      unfold updatePosition, savePositions. subst s1. cbn.
      destruct (scene s); [destruct (setFlagRejects s)|]; cbn;
        match goal with |- context [if ?c then _ else _] => destruct c end;
        reflexivity. }
    assert (Hsock : socket s3 = socket s /\ gameUserId s3 = gameUserId s).
    { subst s3 s2. cbn [socket gameUserId with_refreshed].
      unfold updatePosition, savePositions. subst s1. cbn.
      destruct (scene s); [destruct (setFlagRejects s)|]; cbn;
        match goal with |- context [if ?c then _ else _] => destruct c end;
        split; reflexivity. }
    destruct Hsock as [Hsock Huser].
    exists P2, [mkMessage (Some id) (Some P1)].
    unfold getPosition.
    rewrite updatePosition_positions, updatePosition_sent.
    cbn [positions socket gameUserId now sent with_renderWrites with_drawings].
    rewrite Hd', Hd, Hnow, Hsock, String.eqb_refl, andb_true_r.
    fold P2.
    assert (Sub2 : n_type P2
                   = Some (str_or (Some (fd_noteType formData)) "sticky")
                   /\ n_text P2 = Some (fd_text formData)
                   /\ n_image P2
                      = Some (str_or (Some (fd_image formData)) placeholder)).
    { destruct Sub1 as (T1 & X1 & I1). subst P1 P2.
      unfold positionOf in *. cbn [n_type n_text n_image] in *.
      rewrite Kt, Kx, Ki.
      rewrite F in T1, X1, I1. cbn [opt_field] in T1, X1, I1.
      repeat split; assumption. }
    assert (Pin2 : n_pinColor P2 <> Some ""%string).
    { subst P2 document' u. unfold positionOf. cbn [n_pinColor].
      change (opt_field (d_flags (applyUpdate _ document)) f_pinColor)
        with (Some chosen).
      rewrite str_or_keeps by (eapply newPinColor_nonempty; eauto).
      intros [= Hs]. revert Hs. eapply newPinColor_nonempty; eauto. }
    split; [apply get_set_same|]. split; [exact Sub2|].
    split.
    { rewrite S3. destruct (socket s); [|reflexivity].
      now rewrite <- app_assoc. }
    split.
    { right. exists P1. split; [reflexivity|]. split; [exact Sub1|].
      split; [|exact Pin2]. rewrite Pin1, <- Fpin, P. reflexivity. }
    intros [Hp|[Hn|Ho]]; [|rewrite Hn in N|]; try discriminate.
    rewrite <- Fpin, P in Hp. now elim Hp.
  - (* no colour could be chosen: the empty update changes nothing *)
    set (u := mkUpdate None None None None None None None None
                       None None None None None).
    assert (E : assignPin settings id random true s3
                = with_renderWrites
                    (renderWrites s3 ++ [(id, u, mkOptions false)])
                    (with_drawings
                       (set (drawings s3) id (applyUpdate u document)) s3)).
    { unfold assignPin. rewrite G3, F, N. cbv zeta. rewrite C.
      assert (Hcase : match f_pinColor noteData with
                      | Some EmptyString | None => True
                      | Some _ => False
                      end).
      { destruct (f_pinColor noteData) as [[|c r]|]; simpl in P;
          [exact I | discriminate | exact I]. }
      destruct (f_pinColor noteData) as [[|c r]|]; try contradiction;
        unfold document_update, onNoteUpdate; cbn;
        try rewrite F; reflexivity. }
    rewrite E. clear E.
    exists P1, []. unfold getPosition.
    cbn [positions sent with_renderWrites with_drawings].
    split; [exact HP1|]. split; [exact Sub1|]. split; [exact S3|].
    split; [now left | reflexivity].
Qed.

Lemma sheet_submit_is_recorded_and_sent_witness :
  let s' := withRefresh defaults (1 # 2) true (_updateObject "n1" form)
                        boardCanvas in
  let submitted (p : NoteRecord) :=
    n_type p = Some (str_or (Some (fd_noteType form)) "sticky")
    /\ n_text p = Some (fd_text form)
    /\ n_image p = Some (str_or (Some (fd_image form)) placeholder) in
  exists position earlier,
    getPosition "n1" s' = Some position
    /\ submitted position
    /\ sent s'
       = (if socket boardCanvas
          then sent boardCanvas ++ earlier
               ++ [mkMessage (Some "n1"%string) (Some position)]
          else sent boardCanvas)
    /\ (earlier = []
        \/ exists p, earlier = [mkMessage (Some "n1"%string) (Some p)]
                     /\ submitted p
                     /\ n_pinColor p = Some ""%string
                     /\ n_pinColor position <> Some ""%string)
    /\ (str_or (opt_field (d_flags docN1) f_pinColor) "" <> ""%string
        \/ pinColor defaults = "none"%string
        \/ true = false ->
        earlier = []).
Proof.
  apply (@sheet_submit_is_recorded_and_sent defaults (1 # 2) true "n1" docN1
           form boardCanvas); reflexivity.
Defined.

(** On the board of the examples the note has no pin colour: the sheet
    is submitted, the refresh chooses a pin colour, and two records are
    sent, the second with the pin colour; with the pin colour in place
    one record is sent. *)
Lemma sheet_submit_sends_twice_for_pinless_note :
  List.length
    (sent (withRefresh defaults (1 # 2) true (_updateObject "n1" form)
                       boardCanvas)) = 2%nat
  /\ List.length (sent (_updateObject "n1" form boardCanvas)) = 1%nat
  /\ List.length
       (sent (withRefresh defaults (1 # 2) true (_updateObject "n1" form)
                          boardPinned)) = 1%nat.
Proof. repeat split. Qed.

End UiProperties.

(** ** The drawing and the creation of notes *)

Module DrawingProperties.

Import JsObj JsObjFacts JsObjMoreFacts Board NotePositionManager ManagerQueries.
Import Truncation Samples MoreSamples Ui ManagerFacts UiProperties.

(** X21.  The background of a note is never the futuristic photo frame,
    though [getBackgroundImage] has it for a photo in futuristic mode: a
    photo in futuristic mode takes the first branch of [_updateSprites],
    which uses the frame of the modern mode. *)
Theorem futuristic_photo_frame_is_never_used :
  forall (settings : GameSettings) (noteData : NoteFlags),
    backgroundTexture settings noteData
    <> "modules/investigation-board/assets/futuristic_photoFrame.webp"%string
    /\ getBackgroundImage (Some "photo"%string) "futuristic"
       = "modules/investigation-board/assets/futuristic_photoFrame.webp"%string
    /\ (futuristicPhoto settings noteData = true ->
        backgroundTexture settings noteData
        = getBackgroundImage (Some "photo"%string) "modern").
Proof.
  intros settings noteData. split; [|split; [reflexivity|]].
  - unfold backgroundTexture, futuristicPhoto, getBackgroundImage, isPhoto.
    destruct (str_is (f_type noteData) "photo"),
      (String.eqb (boardMode settings) "futuristic"),
      (String.eqb (boardMode settings) "custom"),
      (str_is (f_type noteData) "index"); simpl; discriminate.
  - intros H. unfold backgroundTexture. now rewrite H.
Qed.

(** X22.  With [Math.random()] in its range, from 0 up to but not
    reaching 1, the random pin colour is one of the four of [PIN_COLORS]:
    the index never leaves the array. *)
Theorem random_pin_is_a_pin_colour :
  forall random : Q,
    (0 <= random)%Q -> (random < 1)%Q ->
    exists chosen,
      newPinColor "random" random = Some chosen /\ In chosen PIN_COLORS.
Proof.
  intros random H0 H1. unfold newPinColor. cbn [String.eqb Ascii.eqb Bool.eqb].
  change (String.eqb "random" "random") with true. cbv iota.
  change (inject_Z (Z.of_nat (List.length PIN_COLORS))) with (4 # 1)%Q.
  set (i := Qfloor (random * (4 # 1))).
  assert (Hlo : (0 <= i)%Z).
  { change 0%Z with (Qfloor 0). apply Qfloor_resp_le.
    apply Qmult_le_0_compat; [assumption | discriminate]. }
  assert (Hhi : (i < 4)%Z).
  { rewrite Zlt_Qlt. apply Qle_lt_trans with (random * (4 # 1))%Q.
    - apply Qfloor_le.
    - change (inject_Z 4) with (1 * (4 # 1))%Q.
      apply Qmult_lt_compat_r; [reflexivity | assumption]. }
  destruct (i <? 0)%Z eqn:E; [apply Z.ltb_lt in E; lia|].
  assert (Hi : i = 0%Z \/ i = 1%Z \/ i = 2%Z \/ i = 3%Z) by lia.
  destruct Hi as [->|[->|[->| ->]]]; simpl; eexists; split;
    try reflexivity; simpl; tauto.
Qed.

Lemma random_pin_is_a_pin_colour_witness :
  exists chosen,
    newPinColor "random" (3 # 4) = Some chosen /\ In chosen PIN_COLORS.
Proof.
  apply (@random_pin_is_a_pin_colour (3 # 4)); [discriminate | reflexivity].
Defined.

(** X23.  When the drawing of a note without pin colour is drawn by its
    owner and the pin setting is not "none", the colour chosen is written
    into the document, so that the cache records it: [getPosition] gives
    a record with that pin colour, [getNotesByPinColor] finds it, and
    with a socket the record is sent to the other clients. *)
Theorem assigned_pin_is_recorded :
  forall settings id random s drawing noteData chosen,
    get (drawings s) id = Some drawing ->
    d_id drawing = id ->
    d_flags drawing = Some noteData ->
    str_or (f_pinColor noteData) "" = ""%string ->
    String.eqb (pinColor settings) "none" = false ->
    newPinColor (pinColor settings) random = Some chosen ->
    let s' := assignPin settings id random true s in
    exists position,
      getPosition id s' = Some position
      /\ n_pinColor position = Some chosen
      /\ In position (getNotesByPinColor chosen s')
      /\ sent s'
         = (if socket s
            then sent s ++ [mkMessage (Some id) (Some position)]
            else sent s).
Proof.
  intros settings id random s drawing noteData chosen G Hid Hf Hp Hnone Hc s'.
  set (u := mkUpdate None None None None None None None None
                     None None None (Some chosen) None).
  set (document := applyUpdate u drawing).
  assert (E : s' = updatePosition document (gameUserId s)
                     (with_renderWrites
                        (renderWrites s ++ [(id, u, mkOptions false)])
                        (with_drawings (set (drawings s) id document) s))).
  { subst s'. unfold assignPin. rewrite G, Hf, Hnone. cbv zeta. rewrite Hc.
    assert (Hcase : match f_pinColor noteData with
                    | Some EmptyString | None => True
                    | Some _ => False
                    end).
    { destruct (f_pinColor noteData) as [[|c r]|]; simpl in Hp;
        [exact I | discriminate | exact I]. }
    destruct (f_pinColor noteData) as [[|c r]|]; try contradiction;
      unfold document_update;
      cbn [gameUserId renderWrites with_renderWrites with_drawings];
      now erewrite onNoteUpdate_tracked;
        [|reflexivity|subst document u; reflexivity|reflexivity]. }
  assert (Hd : d_id document = id) by (subst document; exact Hid).
  assert (Hpin : n_pinColor (positionOf document (now s)) = Some chosen).
  { subst document u. cbn. f_equal. apply str_or_keeps.
    eapply newPinColor_nonempty; eauto. }
  exists (positionOf document (now s)).
  assert (Hget : getPosition id s' = Some (positionOf document (now s))).
  { rewrite E. unfold getPosition. rewrite updatePosition_positions, Hd.
    apply get_set_same. }
  split; [exact Hget|]. split; [exact Hpin|]. split.
  - unfold getNotesByPinColor. apply filter_In. split.
    + eapply get_In_values. exact Hget.
    + rewrite Hpin. simpl. apply String.eqb_refl.
  - rewrite E, updatePosition_sent.
    cbn [socket gameUserId now sent with_renderWrites with_drawings].
    now rewrite Hd, String.eqb_refl, andb_true_r.
Qed.

Lemma assigned_pin_is_recorded_witness :
  let s' := assignPin defaults "n1" (1 # 2) true boardCanvas in
  exists position,
    getPosition "n1" s' = Some position
    /\ n_pinColor position = Some "yellowPin.webp"%string
    /\ In position (getNotesByPinColor "yellowPin.webp" s')
    /\ sent s'
       = (if socket boardCanvas
          then sent boardCanvas ++ [mkMessage (Some "n1"%string) (Some position)]
          else sent boardCanvas).
Proof.
  apply (@assigned_pin_is_recorded defaults "n1" (1 # 2) boardCanvas docN1
           (mkFlags (Some "sticky"%string) (Some (str "Clue #1"))
                    None None None)
           "yellowPin.webp"); reflexivity.
Defined.

(** X24.  With a scene, [createNote] leaves a record of the new note in
    the cache: its type is the one asked for (sticky for an empty one),
    its text is the default text of the type, or "Notes", and is not
    empty, its place is the middle of the canvas, its rotation is 0, its
    scale 1 and it has no pin colour yet; with a socket the record is
    sent to the other clients. *)
Theorem created_note_is_recorded :
  forall settings noteType dimsWidth dimsHeight id s sc,
    scene s = Some sc ->
    let s' := createNote settings noteType dimsWidth dimsHeight id s in
    exists position,
      getPosition id s' = Some position
      /\ n_type position = Some (str_or (Some noteType) "sticky")
      /\ n_text position
         = Some (text_or (defaultTextOf settings
                            (noteType ++ "NoteDefaultText")%string)
                         (str "Notes"))
      /\ n_text position <> Some []
      /\ n_x position = Some (dimsWidth / 2)%Q
      /\ n_y position = Some (dimsHeight / 2)%Q
      /\ n_rotation position = Some 0%Q
      /\ n_scaleX position = Some 1%Q
      /\ n_scaleY position = Some 1%Q
      /\ n_pinColor position = Some ""%string
      /\ sent s'
         = (if socket s
            then sent s ++ [mkMessage (Some id) (Some position)]
            else sent s).
Proof.
  intros settings noteType dimsWidth dimsHeight id s sc Hsc s'.
  set (document := newNote settings noteType dimsWidth dimsHeight id).
  assert (E : s' = updatePosition document (gameUserId s)
                     (with_drawings (set (drawings s) id document) s)).
  { subst s'. unfold createNote. rewrite Hsc. reflexivity. }
  exists (positionOf document (now s)).
  assert (Ht : text_or (defaultTextOf settings
                          (noteType ++ "NoteDefaultText")%string)
                       (str "Notes") <> []).
  { destruct (defaultTextOf settings _) as [[|c t]|]; discriminate. }
  split.
  { rewrite E. unfold getPosition. rewrite updatePosition_positions.
    apply get_set_same. }
  split; [reflexivity|].
  assert (Htext : n_text (positionOf document (now s))
                  = Some (text_or (defaultTextOf settings
                                     (noteType ++ "NoteDefaultText")%string)
                                  (str "Notes"))).
  { subst document. unfold positionOf, newNote.
    cbn [n_text d_flags opt_field f_text]. now rewrite text_or_nil. }
  split; [exact Htext|].
  split; [rewrite Htext; congruence|].
  repeat (split; [reflexivity|]).
  rewrite E, updatePosition_sent.
  cbn [socket gameUserId now sent with_drawings].
  now rewrite String.eqb_refl, andb_true_r.
Qed.

Lemma created_note_is_recorded_witness :
  let s' := createNote defaults "photo" 4000 3000 "n7" boardA in
  exists position,
    getPosition "n7" s' = Some position
    /\ n_type position = Some (str_or (Some "photo"%string) "sticky")
    /\ n_text position
       = Some (text_or (defaultTextOf defaults
                          ("photo" ++ "NoteDefaultText")%string)
                       (str "Notes"))
    /\ n_text position <> Some []
    /\ n_x position = Some (4000 / 2)%Q
    /\ n_y position = Some (3000 / 2)%Q
    /\ n_rotation position = Some 0%Q
    /\ n_scaleX position = Some 1%Q
    /\ n_scaleY position = Some 1%Q
    /\ n_pinColor position = Some ""%string
    /\ sent s'
       = (if socket boardA
          then sent boardA ++ [mkMessage (Some "n7"%string) (Some position)]
          else sent boardA).
Proof.
  apply (@created_note_is_recorded defaults "photo" 4000 3000 "n7" boardA
           (mkScene None)).
  reflexivity.
Defined.

End DrawingProperties.

(** ** From one client to another *)

Module CompositionProperties.

Import JsObj JsObjFacts JsObjMoreFacts Board NotePositionManager ManagerQueries.
Import Truncation Samples MoreSamples Ui ManagerFacts SyncProperties.
Import PersistenceProperties UiProperties.

(** X25.  The update handler reacts to exactly the properties
    [loadPositions] corrects: for a note and an update without
    [noSocket], it records the document when the change holds one of the
    thirteen properties of a saved position, and does nothing otherwise. *)
Theorem onNoteUpdate_reacts_to_tracked_properties :
  forall document noteData updateData userId s,
    d_flags document = Some noteData ->
    onNoteUpdate document updateData (mkOptions false) userId s
    = if hasKeys updateData then updatePosition document userId s else s.
Proof.
  intros document noteData updateData userId s Hf.
  destruct (hasKeys updateData) eqn:K.
  - now apply onNoteUpdate_tracked with (noteData := noteData).
  - unfold onNoteUpdate. rewrite Hf. cbn [noSocket].
    unfold hasKeys in K. rewrite !orb_false_iff in K.
    destruct K as ((((((((((((K1 & K2) & K3) & K4) & K5) & K6) & K7) & K8)
                        & K9) & K10) & K11) & K12) & K13).
    now rewrite K1, K2, K3, K4, K5, K6, K7, K8, K9, K10, K11, K12, K13.
Qed.

Lemma onNoteUpdate_reacts_to_tracked_properties_witness :
  onNoteUpdate docN2 (savedChanges noteN1 docN2) (mkOptions false) "userA" boardA
  = if hasKeys (savedChanges noteN1 docN2)
    then updatePosition docN2 "userA" boardA
    else boardA.
Proof.
  apply (@onNoteUpdate_reacts_to_tracked_properties docN2
           (mkFlags (Some "sticky"%string) (Some (str "Clue #1"))
                    None None None)
           (savedChanges noteN1 docN2) "userA" boardA).
  reflexivity.
Defined.

Lemma loadPositions_sent s : sent (loadPositions s) = sent s.
Proof.
  unfold loadPositions. destruct (scene s) as [sc|]; [|reflexivity].
  fold (stored sc). unfold entries.
  cbn [positions with_positions sent emit with_emitted].
  destruct (loadLoop_shape (stored sc) (with_positions (stored sc) s))
    as (ds & ws & Eq & _).
  rewrite Eq. reflexivity.
Qed.

(** X26.  A note created on one client reaches a client that loads the
    scene: when the write is accepted, [loadPositions] on a client with
    the scene gives the cache of the creating client, so [getPosition]
    and [getNotesByType] find the same record of the new note there, and
    the loading client sends nothing. *)
Theorem created_note_reaches_loading_client :
  forall settings noteType dimsWidth dimsHeight id s sc peer,
    scene s = Some sc ->
    setFlagRejects s = false ->
    scene peer = scene (createNote settings noteType dimsWidth dimsHeight id s) ->
    let creator := createNote settings noteType dimsWidth dimsHeight id s in
    let loaded := loadPositions peer in
    positions loaded = positions creator
    /\ getPosition id loaded
       = Some (positionOf (newNote settings noteType dimsWidth dimsHeight id)
                          (now s))
    /\ In (positionOf (newNote settings noteType dimsWidth dimsHeight id) (now s))
          (getNotesByType (str_or (Some noteType) "sticky") loaded)
    /\ sent loaded = sent peer.
Proof.
  intros settings noteType dimsWidth dimsHeight id s sc peer Hsc Hacc Hpeer
         creator loaded.
  set (document := newNote settings noteType dimsWidth dimsHeight id) in *.
  assert (E : creator = updatePosition document (gameUserId s)
                          (with_drawings (set (drawings s) id document) s)).
  { subst creator. unfold createNote. rewrite Hsc. reflexivity. }
  fold creator in Hpeer. rewrite E in Hpeer.
  rewrite updatePosition_scene in Hpeer.
  unfold savedScene_after in Hpeer. simpl in Hpeer.
  rewrite Hsc, Hacc in Hpeer.
  assert (P : positions loaded = positions creator).
  { subst loaded. rewrite (loadPositions_positions _ Hpeer).
    rewrite E, updatePosition_positions. reflexivity. }
  assert (G : getPosition id loaded = Some (positionOf document (now s))).
  { unfold getPosition. rewrite P, E, updatePosition_positions.
    apply get_set_same. }
  split; [exact P|]. split; [exact G|]. split.
  - unfold getNotesByType. apply filter_In. split.
    + eapply get_In_values. exact G.
    + simpl. apply String.eqb_refl.
  - apply loadPositions_sent.
Qed.

Lemma created_note_reaches_loading_client_witness :
  let creator := createNote defaults "photo" 4000 3000 "n7" boardA in
  let loaded := loadPositions (with_scene (scene creator) boardStale) in
  positions loaded = positions creator
  /\ getPosition "n7" loaded
     = Some (positionOf (newNote defaults "photo" 4000 3000 "n7") (now boardA))
  /\ In (positionOf (newNote defaults "photo" 4000 3000 "n7") (now boardA))
        (getNotesByType (str_or (Some "photo"%string) "sticky") loaded)
  /\ sent loaded = sent (with_scene (scene creator) boardStale).
Proof.
  apply (@created_note_reaches_loading_client defaults "photo" 4000 3000 "n7"
           boardA (mkScene None)
           (with_scene (scene (createNote defaults "photo" 4000 3000 "n7" boardA))
                       boardStale));
    reflexivity.
Defined.

End CompositionProperties.
